(** * Mini Ride Hailing API: dispatch, assignment and ride life cycle

    A shallow embedding of [main.py] and [schemas.py].  The handlers of the
    FastAPI application are functions in a small state-and-exception monad
    over the three MongoDB collections the service keeps ([rider], [driver],
    [ride]); each collection is the list of its documents in natural
    (insertion) order, which is the order a cursor iterates them in. *)

From Stdlib Require Import List String Ascii ZArith NArith QArith Bool Lia.
From Stdlib Require Import Permutation Sorted.
Import ListNotations.

Local Open Scope Z_scope.
Local Open Scope string_scope.
Local Open Scope list_scope.

(** ** Python values *)

(** Truthiness of an [Optional[str]]: [None] and the empty string are falsy. *)
Definition truthy (o : option string) : bool :=
  match o with
  | Some s => negb (s =? "")
  | None => false
  end.

(** ** bson.ObjectId *)

Definition is_hex_digit (c : ascii) : bool :=
  let n := N_of_ascii c in
  ((48 <=? n) && (n <=? 57) || (97 <=? n) && (n <=? 102) || (65 <=? n) && (n <=? 70))%N.

Definition lower_hex (c : ascii) : ascii :=
  let n := N_of_ascii c in
  if ((65 <=? n) && (n <=? 70))%N then ascii_of_N (n + 32) else c.

(** ASCII whitespace: space, and tab to carriage return. *)
Definition is_space (c : ascii) : bool :=
  let n := N_of_ascii c in
  ((n =? 32) || (9 <=? n) && (n <=? 13))%N.

(** [bytes.fromhex(s)]: two adjacent hexadecimal digits per byte, ASCII
    whitespace skipped before and after each byte; [None] stands for
    [ValueError].  The bytes are kept as the text [hexlify] prints for them,
    two lower-case digits each. *)
Fixpoint fromhex (s : string) : option string :=
  match s with
  | EmptyString => Some EmptyString
  | String c s' =>
      if is_space c then fromhex s'
      else if is_hex_digit c then
        match s' with
        | String c' s'' =>
            if is_hex_digit c' then
              match fromhex s'' with
              | Some t => Some (String (lower_hex c) (String (lower_hex c') t))
              | None => None
              end
            else None
        | EmptyString => None
        end
      else None
  end.

(** An object id is kept as the text of its bytes, which is what [str(oid)]
    prints: 24 lower-case hexadecimal digits for the 12 bytes of an identity
    the store hands out. *)
Definition ObjectId := string.

Module ObjectId.
(** [ObjectId.is_valid(v)] on a [str]: [ObjectId(v)] does not raise, that is,
    [v] has 24 characters and [bytes.fromhex] accepts it.  Twenty-four
    hexadecimal digits are valid, and so is a string of 24 characters in
    which blanks stand between the bytes. *)
Definition is_valid (v : string) : bool :=
  (String.length v =? 24)%nat
  && match fromhex v with Some _ => true | None => false end.

(** The bytes of [ObjectId(v)] for a valid [v]. *)
Definition binary (v : string) : ObjectId :=
  match fromhex v with
  | Some t => t
  | None => EmptyString
  end.

(** [ObjectId(v)]: [None] stands for [bson.errors.InvalidId]. *)
Definition parse (v : string) : option ObjectId :=
  if is_valid v then Some (binary v) else None.

(** [str(oid)]. *)
Definition str (oid : ObjectId) : string := oid.

(** The identities the store hands out: the text of 12 bytes, which reads
    back as itself. *)
Definition canonical (oid : ObjectId) : bool :=
  is_valid oid && (binary oid =? oid).
End ObjectId.

(** ** Numbers

    Latitudes, longitudes and squared distances are Python floats.  The
    service only subtracts, squares, adds and compares them, so the embedding
    takes these operations as an interface; the order laws, which hold for
    floats that are not NaN, are a separate class used only where a proof
    needs them. *)

Class Number (R : Type) : Type := {
  sub : R -> R -> R;        (* x - y *)
  add : R -> R -> R;        (* x + y *)
  sq : R -> R;              (* x ** 2 *)
  ltb : R -> R -> bool      (* x < y *)
}.

Class NumberOrder (R : Type) `{Number R} : Prop := {
  ltb_irrefl : forall x : R, ltb x x = false;
  ltb_trans : forall x y z : R, ltb x y = true -> ltb y z = true -> ltb x z = true;
  ltb_cotrans : forall x y z : R, ltb x z = true -> ltb x y = true \/ ltb y z = true
}.

(** The rationals, for running the model on concrete coordinates. *)
#[export] Instance Q_Number : Number Q := {
  sub := Qminus;
  add := Qplus;
  sq := fun x => Qmult x x;
  ltb := fun x y => negb (Qle_bool y x)
}.

(** A sort key: a float or [float("inf")]. *)
Inductive Dist (R : Type) : Type :=
| Finite (x : R)
| Infinity.
Arguments Finite {R} x.
Arguments Infinity {R}.

Definition dist_ltb {R} `{Number R} (a b : Dist R) : bool :=
  match a, b with
  | Finite x, Finite y => ltb x y
  | Finite _, Infinity => true
  | Infinity, _ => false
  end.

(** ** schemas.py *)

Definition datetime := Z.

Record Location (R : Type) : Type := mkLocation {
  lat : R;
  lng : R
}.
Arguments mkLocation {R}.
Arguments lat {R}.
Arguments lng {R}.

Module Rider.
Record t : Type := make {
  name : string;
  phone : option string;
  created_at : option datetime;
  updated_at : option datetime
}.
End Rider.

Module Driver.
Record t (R : Type) : Type := make {
  name : string;
  car : option string;
  plate : option string;
  location : option (Location R);
  is_available : bool;
  created_at : option datetime;
  updated_at : option datetime
}.
Arguments make {R}.
Arguments name {R}.
Arguments car {R}.
Arguments plate {R}.
Arguments location {R}.
Arguments is_available {R}.
Arguments created_at {R}.
Arguments updated_at {R}.
End Driver.

Module Ride.
Record t (R : Type) : Type := make {
  rider_id : string;
  driver_id : option string;
  pickup : Location R;
  dropoff : Location R;
  status : string;
  requested_at : option datetime;
  updated_at : option datetime
}.
Arguments make {R}.
Arguments rider_id {R}.
Arguments driver_id {R}.
Arguments pickup {R}.
Arguments dropoff {R}.
Arguments status {R}.
Arguments requested_at {R}.
Arguments updated_at {R}.
End Ride.

(** ** The document store

    A document is the dump of a schema model under its [_id]; every document
    of a collection was written from a validated model (by [create_document])
    or changed by a [$set] of validated values, so a stored location always
    carries both [lat] and [lng] and the defaults of [loc.get("lat", 0)] and
    [loc.get("lng", 0)] are never taken. *)

Record Doc (M : Type) : Type := mkDoc {
  _id : ObjectId;
  fields : M
}.
Arguments mkDoc {M}.
Arguments _id {M}.
Arguments fields {M}.

(** What [serialize] returns: the document with ["_id"] popped and its text
    stored under ["id"]. *)
Record Json (M : Type) : Type := mkJson {
  id : string;
  body : M
}.
Arguments mkJson {M}.
Arguments id {M}.
Arguments body {M}.

Definition serialize {M} (doc : option (Doc M)) : option (Json M) :=
  match doc with
  | None => None                       (* if not doc: return doc *)
  | Some d => Some (mkJson (ObjectId.str (_id d)) (fields d))
  end.

(** pymongo's collection operations, on the list of documents. *)
Section Collection.
Context {M : Type}.

(** The filter [{"_id": oid}]. *)
Definition by_id (oid : ObjectId) (d : Doc M) : bool := (_id d =? oid).

(** [find(filter)]: the matching documents in natural order. *)
Definition find (p : Doc M -> bool) (c : list (Doc M)) : list (Doc M) :=
  filter p c.

(** [find_one(filter)]: the first matching document, if any. *)
Fixpoint find_one (p : Doc M -> bool) (c : list (Doc M)) : option (Doc M) :=
  match c with
  | [] => None
  | d :: c' => if p d then Some d else find_one p c'
  end.

(** [count_documents(filter)]. *)
Definition count_documents (p : Doc M -> bool) (c : list (Doc M)) : Z :=
  Z.of_nat (List.length (filter p c)).

(** [update_one(filter, {"$set": ...})]: the first matching document is
    changed; [matched_count] is 1 when there was one and 0 otherwise. *)
Fixpoint update_one (p : Doc M -> bool) (set : M -> M) (c : list (Doc M))
  : list (Doc M) :=
  match c with
  | [] => []
  | d :: c' =>
      if p d then mkDoc (_id d) (set (fields d)) :: c'
      else d :: update_one p set c'
  end.

Definition matched_count (p : Doc M -> bool) (c : list (Doc M)) : Z :=
  if existsb p c then 1 else 0.

(** [insert_one(doc)] with the [_id] the driver generated. *)
Definition insert_one (oid : ObjectId) (m : M) (c : list (Doc M)) : list (Doc M) :=
  c ++ [mkDoc oid m].

(** [cursor.limit(n)]: a limit of 0 is no limit, and a negative limit
    returns at most [abs(n)] documents. *)
Definition limit (n : Z) (c : list (Doc M)) : list (Doc M) :=
  if (n =? 0)%Z then c else firstn (Z.abs_nat n) c.
End Collection.

(** Python's stable [list.sort(key=...)], which compares keys with [<] only:
    an element moves ahead of those already placed exactly when its key is
    not greater, so equal keys keep their original order. *)
Section Sort.
Context {A K : Type} (key : A -> K) (lt : K -> K -> bool).

Fixpoint insert_sorted (x : A) (l : list A) : list A :=
  match l with
  | [] => [x]
  | y :: l' => if lt (key y) (key x) then y :: insert_sorted x l' else x :: l
  end.

Fixpoint sort (l : list A) : list A :=
  match l with
  | [] => []
  | x :: l' => insert_sorted x (sort l')
  end.
End Sort.

(** ** Exceptions and handlers *)

Inductive exn : Type :=
| HTTPException (status_code : Z) (detail : string)
| InvalidId.                          (* bson.errors.InvalidId *)

Inductive outcome (A : Type) : Type :=
| Return (a : A)
| Raise (e : exn).
Arguments Return {A} a.
Arguments Raise {A} e.

(** The error kinds of the interface, read off the exception a handler
    raises: the three "Invalid ... id" exceptions are [InvalidID], any other
    400 is [BadRequest], and a 404 is [NotFound]. *)
Definition InvalidID (e : exn) : Prop :=
  e = HTTPException 400 "Invalid driver id" \/
  e = HTTPException 400 "Invalid rider id" \/
  e = HTTPException 400 "Invalid ride id".

Definition BadRequest (e : exn) : Prop :=
  (exists detail, e = HTTPException 400 detail) /\ ~ InvalidID e.

Definition NotFound (e : exn) : Prop :=
  exists detail, e = HTTPException 404 detail.

Section Service.
Context {R : Type} {num : Number R}.

Record DB : Type := mkDB {
  rider : list (Doc Rider.t);
  driver : list (Doc (Driver.t R));
  ride : list (Doc (Ride.t R))
}.

Definition handler (A : Type) : Type := DB -> outcome A * DB.

Definition ret {A} (a : A) : handler A := fun db => (Return a, db).

Definition bind {A B} (h : handler A) (k : A -> handler B) : handler B :=
  fun db =>
    match h db with
    | (Return a, db') => k a db'
    | (Raise e, db') => (Raise e, db')
    end.

Definition raise {A} (e : exn) : handler A := fun db => (Raise e, db).

(** [try: h except Exception: pass] *)
Definition try_pass (h : handler unit) : handler unit :=
  fun db =>
    match h db with
    | (Return _, db') => (Return tt, db')
    | (Raise _, db') => (Return tt, db')
    end.

(** A collection of the database, [db[name]]. *)
Record Coll (M : Type) : Type := mkColl {
  docs : DB -> list (Doc M);
  with_docs : list (Doc M) -> DB -> DB
}.
Arguments docs {M}.
Arguments with_docs {M}.

Definition db_rider : Coll Rider.t :=
  mkColl _ rider (fun c db => mkDB c (driver db) (ride db)).
Definition db_driver : Coll (Driver.t R) :=
  mkColl _ driver (fun c db => mkDB (rider db) c (ride db)).
Definition db_ride : Coll (Ride.t R) :=
  mkColl _ ride (fun c db => mkDB (rider db) (driver db) c).

Definition read {M A} (c : Coll M) (f : list (Doc M) -> A) : handler A :=
  fun db => (Return (f (docs c db)), db).

Definition write {M} (c : Coll M) (f : list (Doc M) -> list (Doc M)) : handler unit :=
  fun db => (Return tt, with_docs c (f (docs c db)) db).

(** [ObjectId(v)] *)
Definition ObjectId_ (v : string) : handler ObjectId :=
  match ObjectId.parse v with
  | Some oid => ret oid
  | None => raise InvalidId
  end.

(** [res = db[name].update_one(filter, {"$set": ...})], returning
    [res.matched_count]. *)
Definition db_update_one {M} (c : Coll M) (p : Doc M -> bool) (set : M -> M)
  : handler Z :=
  fun db =>
    (Return (matched_count p (docs c db)),
     with_docs c (update_one p set (docs c db)) db).

Notation "x <- h ;; k" := (bind h (fun x => k))
  (at level 61, h at next level, right associativity).
Notation "h ;;; k" := (bind h (fun _ => k))
  (at level 61, right associativity).

(** The string held by a truthy [Optional[str]]. *)
Definition the (o : option string) : string :=
  match o with
  | Some s => s
  | None => ""
  end.

(** ** database.py *)

(** Modelled from the spec: [create_document] of database.py, which is not
    among the sources.  It is the store's create operation: the model's
    document is added to the named collection under the identity the store
    gives it, [oid], and that identity is returned as a string. *)
Definition create_document {M} (c : Coll M) (oid : ObjectId) (data : M)
  : handler string :=
  write c (insert_one oid data) ;;;
  ret (ObjectId.str oid).

(** Modelled from the spec: [get_documents] of database.py, which is not
    among the sources: a filtered read truncated to [limit] documents. *)
Definition get_documents {M} (c : Coll M) (p : Doc M -> bool) (limit_ : Z)
  : handler (list (Doc M)) :=
  read c (fun l => firstn (Z.to_nat limit_) (find p l)).

(** ** main.py *)

Definition create_rider (oid : ObjectId) (rider_ : Rider.t)
  : handler (option (Json Rider.t)) :=
  rider_id <- create_document db_rider oid rider_ ;;
  k <- ObjectId_ rider_id ;;
  doc <- read db_rider (find_one (by_id k)) ;;
  ret (serialize doc).

Record DriverLocationUpdate : Type := mkDriverLocationUpdate {
  payload_location : Location R;
  payload_is_available : option bool
}.

Definition create_driver (oid : ObjectId) (driver_ : Driver.t R)
  : handler (option (Json (Driver.t R))) :=
  driver_id <- create_document db_driver oid driver_ ;;
  k <- ObjectId_ driver_id ;;
  doc <- read db_driver (find_one (by_id k)) ;;
  ret (serialize doc).

Definition list_available_drivers (limit_ : Z)
  : handler (list (option (Json (Driver.t R)))) :=
  drivers <- get_documents db_driver (fun d => Driver.is_available (fields d)) limit_ ;;
  ret (map (fun d => serialize (Some d)) drivers).

(** [{"$set": update}] of [update_driver_location]. *)
Definition set_location (payload : DriverLocationUpdate) (d : Driver.t R)
  : Driver.t R :=
  Driver.make (Driver.name d) (Driver.car d) (Driver.plate d)
    (Some (payload_location payload))
    (match payload_is_available payload with
     | Some b => b
     | None => Driver.is_available d
     end)
    (Driver.created_at d) (Driver.updated_at d).

Definition update_driver_location (driver_id : string) (payload : DriverLocationUpdate)
  : handler (option (Json (Driver.t R))) :=
  if negb (ObjectId.is_valid driver_id) then
    raise (HTTPException 400 "Invalid driver id")
  else
    k <- ObjectId_ driver_id ;;
    matched <- db_update_one db_driver (by_id k) (set_location payload) ;;
    if (matched =? 0)%Z then
      raise (HTTPException 404 "Driver not found")
    else
      k <- ObjectId_ driver_id ;;
      doc <- read db_driver (find_one (by_id k)) ;;
      ret (serialize doc).

Record RideRequest : Type := mkRideRequest {
  rider_id : option string;
  rider_name : option string;
  pickup : Location R;
  dropoff : Location R
}.

(** [dist2] of [request_ride], for the request's pickup. *)
Definition dist2 (pickup_ : Location R) (d : Doc (Driver.t R)) : Dist R :=
  match Driver.location (fields d) with
  | None => Infinity
  | Some loc =>
      Finite (add (sq (sub (lat loc) (lat pickup_)))
                  (sq (sub (lng loc) (lng pickup_))))
  end.

(** [{"$set": {"is_available": b}}] *)
Definition set_is_available (b : bool) (d : Driver.t R) : Driver.t R :=
  Driver.make (Driver.name d) (Driver.car d) (Driver.plate d)
    (Driver.location d) b (Driver.created_at d) (Driver.updated_at d).

(** Lines 137-147: the available drivers, and the closest of them. *)
Definition select_driver (pickup_ : Location R) (available : list (Doc (Driver.t R)))
  : option (Doc (Driver.t R)) :=
  match available with
  | [] => None
  | _ :: _ => hd_error (sort (dist2 pickup_) dist_ltb available)
  end.

(** Lines 125-134: the rider of the request, looked up or created.
    [rider_oid] is the identity the store gives to a rider created here. *)
Definition resolve_rider (rider_oid : ObjectId) (data : RideRequest)
  : handler string :=
  if negb (truthy (rider_id data)) then
    if negb (truthy (rider_name data)) then
      raise (HTTPException 400 "Provide rider_id or rider_name")
    else
      create_document db_rider rider_oid
        (Rider.make (the (rider_name data)) None None None)
  else
    if negb (ObjectId.is_valid (the (rider_id data))) then
      raise (HTTPException 400 "Invalid rider id")
    else
      k <- ObjectId_ (the (rider_id data)) ;;
      n <- read db_rider (count_documents (by_id k)) ;;
      if (n =? 0)%Z then raise (HTTPException 404 "Rider not found")
      else ret (the (rider_id data)).

(** The drivers [request_ride] chooses from. *)
Definition available_drivers (db : DB) : list (Doc (Driver.t R)) :=
  find (fun d => Driver.is_available (fields d)) (driver db).

(** [rider_oid] and [ride_oid] are the identities the store gives to the
    rider and to the ride this request inserts. *)
Definition request_ride (rider_oid ride_oid : ObjectId) (data : RideRequest)
  : handler (option (Json (Ride.t R))) :=
  rider_id_ <- resolve_rider rider_oid data ;;
  available <- read db_driver (find (fun d => Driver.is_available (fields d))) ;;
  let driver_obj := select_driver (pickup data) available in
  let ride_ :=
    Ride.make rider_id_
      (match driver_obj with
       | Some d => Some (ObjectId.str (_id d))
       | None => None
       end)
      (pickup data) (dropoff data)
      (match driver_obj with
       | Some _ => "assigned"
       | None => "requested"
       end)
      None None in
  ride_id <- create_document db_ride ride_oid ride_ ;;
  (match driver_obj with
   | Some d =>
       db_update_one db_driver (by_id (_id d)) (set_is_available false) ;;;
       ret tt
   | None => ret tt
   end) ;;;
  k <- ObjectId_ ride_id ;;
  doc <- read db_ride (find_one (by_id k)) ;;
  ret (serialize doc).

Definition get_ride (ride_id : string) : handler (option (Json (Ride.t R))) :=
  if negb (ObjectId.is_valid ride_id) then
    raise (HTTPException 400 "Invalid ride id")
  else
    k <- ObjectId_ ride_id ;;
    doc <- read db_ride (find_one (by_id k)) ;;
    match doc with
    | None => raise (HTTPException 404 "Ride not found")
    | Some _ => ret (serialize doc)
    end.

Definition allowed : list string :=
  ["requested"; "assigned"; "accepted"; "in_progress"; "completed"; "cancelled"].

(** [x in s] for a set of strings. *)
Definition mem (x : string) (s : list string) : bool :=
  existsb (String.eqb x) s.

(** [{"$set": {"status": s}}] *)
Definition set_status (s : string) (r : Ride.t R) : Ride.t R :=
  Ride.make (Ride.rider_id r) (Ride.driver_id r) (Ride.pickup r) (Ride.dropoff r)
    s (Ride.requested_at r) (Ride.updated_at r).

Definition update_ride_status (ride_id : string) (payload_status : string)
  : handler (option (Json (Ride.t R))) :=
  if negb (ObjectId.is_valid ride_id) then
    raise (HTTPException 400 "Invalid ride id")
  else if negb (mem payload_status allowed) then
    raise (HTTPException 400 "Invalid status")
  else
    k <- ObjectId_ ride_id ;;
    doc <- read db_ride (find_one (by_id k)) ;;
    match doc with
    | None => raise (HTTPException 404 "Ride not found")
    | Some d =>
        (if mem payload_status ["completed"; "cancelled"]
            && truthy (Ride.driver_id (fields d))
         then
           try_pass
             (j <- ObjectId_ (the (Ride.driver_id (fields d))) ;;
              db_update_one db_driver (by_id j) (set_is_available true) ;;;
              ret tt)
         else ret tt) ;;;
        k <- ObjectId_ ride_id ;;
        db_update_one db_ride (by_id k) (set_status payload_status) ;;;
        k <- ObjectId_ ride_id ;;
        doc <- read db_ride (find_one (by_id k)) ;;
        ret (serialize doc)
    end.

(** The filter dictionary of [list_rides]: each key is present or not. *)
Record RideFilter : Type := mkRideFilter {
  filt_rider_id : option string;
  filt_driver_id : option string
}.

(** A ride document matches [filt] when it agrees with every key present. *)
Definition matches (filt : RideFilter) (r : Doc (Ride.t R)) : bool :=
  (match filt_rider_id filt with
   | Some s => (Ride.rider_id (fields r) =? s)
   | None => true
   end)
  &&
  (match filt_driver_id filt with
   | Some s =>
       match Ride.driver_id (fields r) with
       | Some s' => (s' =? s)
       | None => false
       end
   | None => true
   end).

Definition list_rides_filter (rider_id_ driver_id_ : option string) : RideFilter :=
  mkRideFilter
    (if truthy rider_id_ && ObjectId.is_valid (the rider_id_)
     then Some (the rider_id_) else None)
    (if truthy driver_id_ && ObjectId.is_valid (the driver_id_)
     then Some (the driver_id_) else None).

Definition list_rides (rider_id_ driver_id_ : option string) (limit_ : Z)
  : handler (list (option (Json (Ride.t R)))) :=
  let filt := list_rides_filter rider_id_ driver_id_ in
  rides <- read db_ride (fun c => limit limit_ (find (matches filt) c)) ;;
  ret (map (fun r => serialize (Some r)) rides).

(** ** The routes

    The decorators of main.py, in the order they register the handlers
    (FastAPI's own documentation pages are left out).  A path is the list of
    its segments; a path parameter takes one non-empty segment. *)

Inductive Method : Type := GET | POST | PATCH | PUT | DELETE.

Definition Method_eqb (a b : Method) : bool :=
  match a, b with
  | GET, GET | POST, POST | PATCH, PATCH | PUT, PUT | DELETE, DELETE => true
  | _, _ => false
  end.

Inductive Endpoint : Type :=
| ep_read_root
| ep_test_database
| ep_create_rider
| ep_create_driver
| ep_list_available_drivers
| ep_update_driver_location (driver_id : string)
| ep_request_ride
| ep_get_ride (ride_id : string)
| ep_update_ride_status (ride_id : string)
| ep_list_rides.

(** A path template: literal segments and parameters. *)
Inductive segment : Type :=
| lit (s : string)
| par.

(** The parameters a path gives to a template, when it matches. *)
Fixpoint match_path (t : list segment) (path : list string) : option (list string) :=
  match t, path with
  | [], [] => Some []
  | lit s :: t', x :: path' => if x =? s then match_path t' path' else None
  | par :: t', x :: path' =>
      if x =? "" then None
      else
        match match_path t' path' with
        | Some ps => Some (x :: ps)
        | None => None
        end
  | _, _ => None
  end.

Definition routes : list (Method * list segment * (list string -> Endpoint)) :=
  [ (GET, [], fun _ => ep_read_root);
    (GET, [lit "test"], fun _ => ep_test_database);
    (POST, [lit "riders"], fun _ => ep_create_rider);
    (POST, [lit "drivers"], fun _ => ep_create_driver);
    (GET, [lit "drivers"; lit "available"], fun _ => ep_list_available_drivers);
    (PATCH, [lit "drivers"; par; lit "location"],
     fun ps => ep_update_driver_location (hd "" ps));
    (POST, [lit "rides"; lit "request"], fun _ => ep_request_ride);
    (GET, [lit "rides"; par], fun ps => ep_get_ride (hd "" ps));
    (PATCH, [lit "rides"; par; lit "status"],
     fun ps => ep_update_ride_status (hd "" ps));
    (GET, [lit "rides"], fun _ => ep_list_rides) ].

Inductive Resolution : Type :=
| Matched (e : Endpoint)
| MethodNotAllowed          (* a path matched, but no route with the method *)
| NoRoute.

(** The first route matching path and method wins. *)
Fixpoint resolve_in (rs : list (Method * list segment * (list string -> Endpoint)))
  (partial : bool) (m : Method) (path : list string) : Resolution :=
  match rs with
  | [] => if partial then MethodNotAllowed else NoRoute
  | (m', t, endpoint) :: rs' =>
      match match_path t path with
      | Some ps =>
          if Method_eqb m m' then Matched (endpoint ps)
          else resolve_in rs' true m path
      | None => resolve_in rs' partial m path
      end
  end.

Definition resolve : Method -> list string -> Resolution :=
  resolve_in routes false.

End Service.

Arguments DB : clear implicits.
Arguments handler : clear implicits.
Arguments Coll : clear implicits.
Arguments docs {R M}.
Arguments with_docs {R M}.
Arguments RideRequest : clear implicits.
Arguments DriverLocationUpdate : clear implicits.
Arguments RideFilter : clear implicits.

(** ** A small fleet on rational coordinates *)

Module Example.
Definition oid_a : ObjectId := "aaaaaaaaaaaaaaaaaaaaaaaa".
Definition oid_b : ObjectId := "bbbbbbbbbbbbbbbbbbbbbbbb".
Definition oid_c : ObjectId := "cccccccccccccccccccccccc".
Definition oid_d : ObjectId := "dddddddddddddddddddddddd".
Definition oid_e : ObjectId := "eeeeeeeeeeeeeeeeeeeeeeee".
Definition oid_f : ObjectId := "ffffffffffffffffffffffff".

Definition at_ (x y : Z) : Location Q := mkLocation (inject_Z x) (inject_Z y).

Definition alice : Doc Rider.t := mkDoc oid_a (Rider.make "Alice" None None None).

(** An available driver at (10, 10), a nearer one at (1, 1), one without a
    location, and one who is busy at the pickup point itself. *)
Definition dan : Doc (Driver.t Q) :=
  mkDoc oid_b (Driver.make "Dan" (Some "Golf") (Some "B-1") (Some (at_ 10 10)) true None None).
Definition eve : Doc (Driver.t Q) :=
  mkDoc oid_c (Driver.make "Eve" None None (Some (at_ 1 1)) true None None).
Definition fay : Doc (Driver.t Q) :=
  mkDoc oid_d (Driver.make "Fay" None None None true None None).
Definition gus : Doc (Driver.t Q) :=
  mkDoc oid_e (Driver.make "Gus" None None (Some (at_ 0 0)) false None None).

(** A ride of Alice's with Gus. *)
Definition trip : Doc (Ride.t Q) :=
  mkDoc oid_f
    (Ride.make oid_a (Some oid_e) (at_ 0 0) (at_ 5 5) "assigned" None None).

Definition fleet : DB Q := mkDB [alice] [fay; dan; eve; gus] [trip].

Definition nobody : DB Q := mkDB [alice] [] [].

Definition from_origin (rider_id_ rider_name_ : option string) : RideRequest Q :=
  mkRideRequest rider_id_ rider_name_ (at_ 0 0) (at_ 5 5).

Definition oid_new1 : ObjectId := "0123456789abcdef01234567".
Definition oid_new2 : ObjectId := "89abcdef0123456789abcdef".

(** Two available drivers, neither with a location. *)
Definition hal : Doc (Driver.t Q) :=
  mkDoc oid_b (Driver.make "Hal" None None None true None None).

Definition parked : DB Q := mkDB [alice] [fay; hal] [].

(** The trip's driver has left the store. *)
Definition stray : DB Q := mkDB [alice] [dan] [trip].
End Example.

(** * Properties *)

(** ** Object ids *)

Lemma parse_valid (v : string) :
  ObjectId.is_valid v = true -> ObjectId.parse v = Some (ObjectId.binary v).
Proof.
  intros Hv. unfold ObjectId.parse. now rewrite Hv.
Qed.


Lemma parse_canonical (oid : ObjectId) :
  ObjectId.canonical oid = true -> ObjectId.parse (ObjectId.str oid) = Some oid.
Proof.
  unfold ObjectId.canonical, ObjectId.str. intros H.
  apply andb_true_iff in H. destruct H as [Hv Hl].
  rewrite (parse_valid _ Hv). apply String.eqb_eq in Hl. now rewrite Hl.
Qed.

Lemma parse_is_valid (v : string) (k : ObjectId) :
  ObjectId.parse v = Some k -> ObjectId.is_valid v = true.
Proof.
  unfold ObjectId.parse. destruct (ObjectId.is_valid v); [reflexivity | discriminate].
Qed.

(** ** Collections *)

Section CollectionFacts.
Context {M : Type}.
Implicit Types (c : list (Doc M)) (d : Doc M) (k j : ObjectId).

Lemma by_id_true k d : by_id k d = true <-> _id d = k.
Proof. unfold by_id. apply String.eqb_eq. Qed.

Lemma by_id_false k d : by_id k d = false <-> _id d <> k.
Proof. unfold by_id. apply String.eqb_neq. Qed.

Lemma find_one_Some p c d : find_one p c = Some d -> In d c /\ p d = true.
Proof.
  induction c as [|x c IH]; simpl; [discriminate|].
  destruct (p x) eqn:E; intros H.
  - injection H as <-. auto.
  - destruct (IH H). auto.
Qed.



Lemma matched_count_find_one p c :
  matched_count p c = match find_one p c with Some _ => 1 | None => 0 end.
Proof.
  unfold matched_count. induction c as [|x c IH]; simpl; [reflexivity|].
  destruct (p x); simpl; [reflexivity | exact IH].
Qed.

Lemma count_documents_zero p c :
  (count_documents p c =? 0)%Z = match find_one p c with Some _ => false | None => true end.
Proof.
  unfold count_documents. induction c as [|x c IH]; simpl; [reflexivity|].
  destruct (p x); simpl; [reflexivity | exact IH].
Qed.

Lemma find_one_insert_one_fresh k (m : M) c :
  find_one (by_id k) c = None ->
  find_one (by_id k) (insert_one k m c) = Some (mkDoc k m).
Proof.
  unfold insert_one. induction c as [|x c IH]; simpl.
  - intros _. unfold by_id. simpl. now rewrite String.eqb_refl.
  - destruct (by_id k x); [discriminate | exact IH].
Qed.


Lemma find_one_update_one_same k (set : M -> M) c d :
  find_one (by_id k) c = Some d ->
  find_one (by_id k) (update_one (by_id k) set c)
  = Some (mkDoc (_id d) (set (fields d))).
Proof.
  induction c as [|x c IH]; simpl; [discriminate|].
  destruct (by_id k x) eqn:E; simpl.
  - intros H. injection H as <-. unfold by_id in *. simpl. now rewrite E.
  - rewrite E. exact IH.
Qed.

Lemma find_one_update_one_other k j (set : M -> M) c :
  j <> k ->
  find_one (by_id j) (update_one (by_id k) set c) = find_one (by_id j) c.
Proof.
  intros Hjk. induction c as [|x c IH]; simpl; [reflexivity|].
  destruct (by_id k x) eqn:E; simpl.
  - apply by_id_true in E.
    assert (Hx : by_id j x = false) by (apply by_id_false; congruence).
    rewrite Hx. unfold by_id at 1. simpl. fold (by_id j x). now rewrite Hx.
  - destruct (by_id j x); [reflexivity | exact IH].
Qed.


Lemma find_one_unique c d :
  NoDup (map _id c) -> In d c -> find_one (by_id (_id d)) c = Some d.
Proof.
  induction c as [|x c IH]; simpl; intros Hnd Hin; [contradiction|].
  inversion Hnd as [|? ? Hx Hc]; subst.
  destruct Hin as [->|Hin].
  - unfold by_id. now rewrite String.eqb_refl.
  - destruct (by_id (_id d) x) eqn:E.
    + apply by_id_true in E. exfalso. apply Hx. rewrite E. now apply in_map.
    + auto.
Qed.

Lemma length_limit (n : Z) c :
  n <> 0 -> (List.length (limit n c) <= Z.abs_nat n)%nat.
Proof.
  intros Hn. unfold limit. destruct (Z.eqb_spec n 0) as [|_]; [contradiction|].
  rewrite length_firstn. apply Nat.le_min_l.
Qed.


Lemma limit_incl (n : Z) c : incl (limit n c) c.
Proof.
  unfold limit. destruct (n =? 0)%Z; [apply incl_refl|].
  intros d Hd. rewrite <- (firstn_skipn (Z.abs_nat n) c). apply in_or_app. now left.
Qed.
End CollectionFacts.

(** ** Sorting *)

Section SortFacts.
Context {A K : Type} (key : A -> K) (lt : K -> K -> bool).
Hypothesis lt_irrefl : forall x, lt x x = false.
Hypothesis lt_trans : forall x y z, lt x y = true -> lt y z = true -> lt x z = true.
Hypothesis lt_cotrans : forall x y z, lt x z = true -> lt x y = true \/ lt y z = true.

Lemma hd_insert_sorted x l :
  hd_error (insert_sorted key lt x l)
  = Some (match l with
          | [] => x
          | y :: _ => if lt (key y) (key x) then y else x
          end).
Proof.
  destruct l as [|y l]; simpl; [reflexivity|].
  destruct (lt (key y) (key x)); reflexivity.
Qed.

Lemma sort_nil l : sort key lt l = [] -> l = [].
Proof.
  destruct l as [|x l]; [reflexivity|]. simpl. intros H.
  pose proof (hd_insert_sorted x (sort key lt l)) as Hh.
  rewrite H in Hh. discriminate.
Qed.

Lemma hd_sort_In l m : hd_error (sort key lt l) = Some m -> In m l.
Proof.
  revert m. induction l as [|x l IH]; intros m; simpl; [discriminate|].
  rewrite hd_insert_sorted.
  destruct (sort key lt l) as [|y s].
  - intros H. injection H as <-. now left.
  - destruct (lt (key y) (key x)); intros H; injection H as <-.
    + right. now apply IH.
    + now left.
Qed.

Lemma lt_asym x y : lt x y = true -> lt y x = false.
Proof.
  intros Hxy. destruct (lt y x) eqn:Hyx; [|reflexivity].
  rewrite <- (lt_irrefl x). symmetry. now apply lt_trans with y.
Qed.

Lemma insert_sorted_permutation x l :
  Permutation (insert_sorted key lt x l) (x :: l).
Proof.
  induction l as [|y l IH]; simpl; [apply Permutation_refl|].
  destruct (lt (key y) (key x)); [|apply Permutation_refl].
  apply Permutation_trans with (y :: x :: l); [now constructor | constructor].
Qed.

(** [sort] rearranges its argument... *)
Lemma sort_permutation l : Permutation (sort key lt l) l.
Proof.
  induction l as [|x l IH]; simpl; [constructor|].
  apply Permutation_trans with (x :: sort key lt l);
    [apply insert_sorted_permutation | now constructor].
Qed.

(** ... into non-decreasing order of the keys. *)
Lemma sort_sorted l :
  StronglySorted (fun a b => lt (key b) (key a) = false) (sort key lt l).
Proof.
  induction l as [|x l IH]; simpl; [constructor|].
  induction IH as [|y s Hs IHs Hy]; simpl; [repeat constructor|].
  destruct (lt (key y) (key x)) eqn:Hyx.
  - constructor; [exact IHs|].
    apply Forall_forall. intros z Hz.
    apply (Permutation_in _ (insert_sorted_permutation x s)) in Hz.
    destruct Hz as [<-|Hz]; [now apply lt_asym|].
    rewrite Forall_forall in Hy. now apply Hy.
  - constructor; [now constructor|].
    constructor; [exact Hyx|].
    apply Forall_forall. intros z Hz.
    rewrite Forall_forall in Hy. specialize (Hy z Hz).
    destruct (lt (key z) (key x)) eqn:Hzx; [|reflexivity].
    destruct (lt_cotrans _ (key y) _ Hzx) as [H|H]; congruence.
Qed.

(** The head of the sorted list is the first element of least key. *)
Lemma hd_sort_first_least l m :
  hd_error (sort key lt l) = Some m ->
  exists before after,
    l = before ++ m :: after /\
    (forall d, In d l -> lt (key d) (key m) = false) /\
    (forall d, In d before -> lt (key m) (key d) = true).
Proof.
  revert m. induction l as [|x l IH]; intros m; simpl; [discriminate|].
  rewrite hd_insert_sorted.
  destruct (sort key lt l) as [|y s] eqn:Hs.
  - apply sort_nil in Hs. subst l. intros H. injection H as <-.
    exists [], []. split; [reflexivity|]. split.
    + intros d [<-|[]]. apply lt_irrefl.
    + intros d [].
  - destruct (IH y eq_refl) as (before & after & Hl & Hmin & Hbefore).
    destruct (lt (key y) (key x)) eqn:Hyx; intros H; injection H as <-.
    + exists (x :: before), after. split; [simpl; now rewrite Hl|]. split.
      * intros d [<-|Hd]; [now apply lt_asym | now apply Hmin].
      * intros d [<-|Hd]; [exact Hyx | now apply Hbefore].
    + exists [], l. split; [reflexivity|]. split.
      * intros d [<-|Hd]; [apply lt_irrefl|].
        destruct (lt (key d) (key x)) eqn:Hdx; [|reflexivity].
        destruct (lt_cotrans _ (key y) _ Hdx) as [H|H].
        -- now rewrite (Hmin d Hd) in H.
        -- now rewrite Hyx in H.
      * intros d [].
Qed.
End SortFacts.

Section DistFacts.
Context {R : Type} {num : Number R} {ord : NumberOrder R}.

Lemma dist_ltb_irrefl (a : Dist R) : dist_ltb a a = false.
Proof. destruct a; simpl; [apply ltb_irrefl | reflexivity]. Qed.

Lemma dist_ltb_trans (a b c : Dist R) :
  dist_ltb a b = true -> dist_ltb b c = true -> dist_ltb a c = true.
Proof.
  destruct a, b, c; simpl; try discriminate; try reflexivity. apply ltb_trans.
Qed.

Lemma dist_ltb_cotrans (a b c : Dist R) :
  dist_ltb a c = true -> dist_ltb a b = true \/ dist_ltb b c = true.
Proof.
  destruct a, b, c; simpl; try discriminate; auto. apply ltb_cotrans.
Qed.
End DistFacts.

Arguments ObjectId.parse : simpl never.
Arguments ObjectId.is_valid : simpl never.
Arguments truthy : simpl never.
Arguments mem : simpl never.

Lemma is_valid_nonempty (v : string) :
  ObjectId.is_valid v = true -> truthy (Some v) = true.
Proof.
  destruct v; [discriminate | reflexivity].
Qed.

Ltac run :=
  unfold bind, ret, raise, read, write, try_pass, ObjectId_, db_update_one,
    create_document; simpl.

Section Properties.
Context {R : Type} {num : Number R}.
Implicit Types (db : DB R) (k j : ObjectId).


(** ** Rider resolution *)

Lemma resolve_rider_malformed rider_oid (data : RideRequest R) db :
  truthy (rider_id data) = true ->
  ObjectId.is_valid (the (rider_id data)) = false ->
  resolve_rider rider_oid data db = (Raise (HTTPException 400 "Invalid rider id"), db).
Proof.
  intros Ht Hv. unfold resolve_rider. rewrite Ht, Hv. reflexivity.
Qed.

Lemma resolve_rider_absent rider_oid (data : RideRequest R) db k :
  truthy (rider_id data) = true ->
  ObjectId.parse (the (rider_id data)) = Some k ->
  find_one (by_id k) (rider db) = None ->
  resolve_rider rider_oid data db = (Raise (HTTPException 404 "Rider not found"), db).
Proof.
  intros Ht Hk Hnone. unfold resolve_rider.
  rewrite Ht, (parse_is_valid _ _ Hk). run. rewrite Hk. simpl.
  rewrite count_documents_zero, Hnone. reflexivity.
Qed.

Lemma resolve_rider_present rider_oid (data : RideRequest R) db k r :
  truthy (rider_id data) = true ->
  ObjectId.parse (the (rider_id data)) = Some k ->
  find_one (by_id k) (rider db) = Some r ->
  resolve_rider rider_oid data db = (Return (the (rider_id data)), db).
Proof.
  intros Ht Hk Hr. unfold resolve_rider.
  rewrite Ht, (parse_is_valid _ _ Hk). run. rewrite Hk. simpl.
  rewrite count_documents_zero, Hr. reflexivity.
Qed.

Lemma resolve_rider_created rider_oid (data : RideRequest R) db :
  truthy (rider_id data) = false ->
  truthy (rider_name data) = true ->
  resolve_rider rider_oid data db
  = (Return (ObjectId.str rider_oid),
     mkDB (rider db ++ [mkDoc rider_oid (Rider.make (the (rider_name data)) None None None)])
          (driver db) (ride db)).
Proof.
  intros Hi Hn. unfold resolve_rider. rewrite Hi, Hn. reflexivity.
Qed.

Lemma resolve_rider_missing rider_oid (data : RideRequest R) db :
  truthy (rider_id data) = false ->
  truthy (rider_name data) = false ->
  resolve_rider rider_oid data db
  = (Raise (HTTPException 400 "Provide rider_id or rider_name"), db).
Proof.
  intros Hi Hn. unfold resolve_rider. rewrite Hi, Hn. reflexivity.
Qed.

(** Rider resolution never touches drivers or rides. *)
Lemma resolve_rider_frame rider_oid (data : RideRequest R) db out db1 :
  resolve_rider rider_oid data db = (out, db1) ->
  driver db1 = driver db /\ ride db1 = ride db.
Proof.
  unfold resolve_rider.
  destruct (truthy (rider_id data)); simpl.
  - destruct (ObjectId.is_valid (the (rider_id data))); simpl.
    + run. destruct (ObjectId.parse (the (rider_id data))); simpl.
      * destruct (count_documents _ _ =? 0)%Z; intros H; injection H as _ <-; auto.
      * intros H; injection H as _ <-; auto.
    + run. intros H; injection H as _ <-; auto.
  - destruct (truthy (rider_name data)); run; intros H; injection H as _ <-; auto.
Qed.

(** If rider resolution raises, the whole request raises the same exception
    and leaves the store as rider resolution left it. *)
Lemma request_ride_raise rider_oid ride_oid (data : RideRequest R) db e db1 :
  resolve_rider rider_oid data db = (Raise e, db1) ->
  request_ride rider_oid ride_oid data db = (Raise e, db1).
Proof.
  intros H. unfold request_ride, bind at 1. rewrite H. reflexivity.
Qed.

(** ** Ride status *)

(** C5, as the code has it.  For every status outside the six allowed
    values [update_ride_status] raises and leaves the store exactly as it
    was, both checks coming before the first store operation: for a
    well-formed ride identity the exception is "Invalid status" (400), a
    bad request; for a malformed one the identity check comes first and the
    exception is "Invalid ride id" (400), an invalid identity. *)
Theorem update_ride_status_rejects_unknown_status
    (ride_id payload_status : string) db :
  mem payload_status allowed = false ->
  exists e,
    update_ride_status ride_id payload_status db = (Raise e, db) /\
    (ObjectId.is_valid ride_id = true ->
     e = HTTPException 400 "Invalid status" /\ BadRequest e) /\
    (ObjectId.is_valid ride_id = false ->
     e = HTTPException 400 "Invalid ride id" /\ InvalidID e).
Proof.
  intros Hs. unfold update_ride_status. rewrite Hs.
  destruct (ObjectId.is_valid ride_id); simpl.
  - eexists. split; [reflexivity|]. split; [|discriminate].
    intros _. split; [reflexivity|]. split; [now exists "Invalid status"|].
    unfold InvalidID. intros [H|[H|H]]; discriminate.
  - eexists. split; [reflexivity|]. split; [discriminate|].
    intros _. split; [reflexivity|]. unfold InvalidID. auto.
Qed.

(** C4.  For an existing ride whose [driver_id] names a stored driver,
    [update_ride_status] to "completed" or "cancelled" returns the updated
    ride and leaves that driver with [is_available = true], whatever it was
    before, and with its identity and every other field as they were; to any
    other allowed status it returns the updated ride and leaves the driver
    collection exactly as it was. *)
Theorem update_ride_status_releases_driver
    (ride_id payload_status : string) db k (r : Doc (Ride.t R)) (s : string) j
    (d : Doc (Driver.t R)) :
  mem payload_status allowed = true ->
  ObjectId.parse ride_id = Some k ->
  find_one (by_id k) (ride db) = Some r ->
  Ride.driver_id (fields r) = Some s ->
  ObjectId.parse s = Some j ->
  find_one (by_id j) (driver db) = Some d ->
  exists json db',
    update_ride_status ride_id payload_status db = (Return (Some json), db') /\
    Ride.status (body json) = payload_status /\
    (mem payload_status ["completed"; "cancelled"] = true ->
     exists d',
       find_one (by_id j) (driver db') = Some d' /\
       Driver.is_available (fields d') = true /\
       _id d' = _id d /\
       Driver.name (fields d') = Driver.name (fields d) /\
       Driver.car (fields d') = Driver.car (fields d) /\
       Driver.plate (fields d') = Driver.plate (fields d) /\
       Driver.location (fields d') = Driver.location (fields d) /\
       Driver.created_at (fields d') = Driver.created_at (fields d) /\
       Driver.updated_at (fields d') = Driver.updated_at (fields d)) /\
    (mem payload_status ["completed"; "cancelled"] = false ->
     driver db' = driver db).
Proof.
  intros Ha Hk Hr Hs Hj Hd.
  assert (Hrun : update_ride_status ride_id payload_status db
                 = (Return (Some (mkJson (_id r) (set_status payload_status (fields r)))),
                    mkDB (rider db)
                         (if mem payload_status ["completed"; "cancelled"]
                          then update_one (by_id j) (set_is_available true) (driver db)
                          else driver db)
                         (update_one (by_id k) (set_status payload_status) (ride db)))).
  { unfold update_ride_status.
    rewrite (parse_is_valid _ _ Hk), Ha. run.
    rewrite Hk. simpl. rewrite Hr. simpl. rewrite Hs.
    rewrite (is_valid_nonempty _ (parse_is_valid _ _ Hj)).
    destruct (mem payload_status ["completed"; "cancelled"]); simpl.
    - rewrite Hj. simpl.
      rewrite (find_one_update_one_same _ _ _ _ Hr). reflexivity.
    - rewrite (find_one_update_one_same _ _ _ _ Hr). reflexivity. }
  eexists. eexists. split; [exact Hrun|]. simpl.
  split; [reflexivity|].
  split; intros Hm; rewrite Hm; [|reflexivity].
  eexists. split; [exact (find_one_update_one_same _ _ _ _ Hd)|].
  simpl. repeat split; reflexivity.
Qed.

(** ** Driver location *)

(** C9.  For an existing driver, [update_driver_location] returns the
    driver's document with [location] replaced by the payload's,
    [is_available] replaced only when the payload supplies it, and the
    name, car, plate and timestamps (and the identity) as they were; a later
    fetch of the driver sees that document, and no other driver, rider or
    ride is changed. *)
Theorem update_driver_location_frame
    (driver_id : string) (payload : DriverLocationUpdate R) db k
    (d : Doc (Driver.t R)) :
  ObjectId.parse driver_id = Some k ->
  find_one (by_id k) (driver db) = Some d ->
  exists d' db',
    update_driver_location driver_id payload db = (Return (serialize (Some d')), db') /\
    find_one (by_id k) (driver db') = Some d' /\
    Driver.location (fields d') = Some (payload_location payload) /\
    Driver.is_available (fields d')
    = match payload_is_available payload with
      | Some b => b
      | None => Driver.is_available (fields d)
      end /\
    _id d' = _id d /\
    Driver.name (fields d') = Driver.name (fields d) /\
    Driver.car (fields d') = Driver.car (fields d) /\
    Driver.plate (fields d') = Driver.plate (fields d) /\
    Driver.created_at (fields d') = Driver.created_at (fields d) /\
    Driver.updated_at (fields d') = Driver.updated_at (fields d) /\
    (forall j, j <> k ->
               find_one (by_id j) (driver db') = find_one (by_id j) (driver db)) /\
    rider db' = rider db /\
    ride db' = ride db.
Proof.
  intros Hk Hd.
  assert (Hrun : update_driver_location driver_id payload db
                 = (Return (serialize (Some (mkDoc (_id d) (set_location payload (fields d))))),
                    mkDB (rider db)
                         (update_one (by_id k) (set_location payload) (driver db))
                         (ride db))).
  { unfold update_driver_location.
    rewrite (parse_is_valid _ _ Hk). run. rewrite Hk. simpl.
    rewrite matched_count_find_one, Hd. simpl.
    rewrite (find_one_update_one_same _ _ _ _ Hd). reflexivity. }
  eexists. eexists. split; [exact Hrun|]. simpl.
  split; [now apply find_one_update_one_same|].
  repeat (split; [reflexivity|]).
  split; [|split; reflexivity].
  intros j Hj. now apply find_one_update_one_other.
Qed.

(** ** Requesting a ride *)

(** What [request_ride] does once the rider is resolved. *)
Lemma request_ride_run rider_oid ride_oid (data : RideRequest R) db rid db1 :
  resolve_rider rider_oid data db = (Return rid, db1) ->
  let sel := select_driver (pickup data) (available_drivers db) in
  let ride_ :=
    Ride.make rid
      (match sel with Some d => Some (ObjectId.str (_id d)) | None => None end)
      (pickup data) (dropoff data)
      (match sel with Some _ => "assigned" | None => "requested" end)
      None None in
  request_ride rider_oid ride_oid data db
  = (match ObjectId.parse (ObjectId.str ride_oid) with
     | Some k => Return (serialize (find_one (by_id k) (insert_one ride_oid ride_ (ride db))))
     | None => Raise InvalidId
     end,
     mkDB (rider db1)
          (match sel with
           | Some d => update_one (by_id (_id d)) (set_is_available false) (driver db)
           | None => driver db
           end)
          (insert_one ride_oid ride_ (ride db))).
Proof.
  intros H. destruct (resolve_rider_frame _ _ _ _ _ H) as [Hd Hr].
  unfold request_ride, bind. rewrite H. run.
  unfold available_drivers. rewrite Hd, Hr.
  destruct (select_driver _ _); simpl;
    destruct (ObjectId.parse (ObjectId.str ride_oid)); reflexivity.
Qed.

(** With a canonical identity new to the ride collection, the read-back
    finds the ride just stored. *)
Lemma request_ride_stored rider_oid ride_oid (data : RideRequest R) db rid db1 :
  resolve_rider rider_oid data db = (Return rid, db1) ->
  ObjectId.canonical ride_oid = true ->
  find_one (by_id ride_oid) (ride db) = None ->
  let sel := select_driver (pickup data) (available_drivers db) in
  let ride_ :=
    Ride.make rid
      (match sel with Some d => Some (ObjectId.str (_id d)) | None => None end)
      (pickup data) (dropoff data)
      (match sel with Some _ => "assigned" | None => "requested" end)
      None None in
  request_ride rider_oid ride_oid data db
  = (Return (Some (mkJson (ObjectId.str ride_oid) ride_)),
     mkDB (rider db1)
          (match sel with
           | Some d => update_one (by_id (_id d)) (set_is_available false) (driver db)
           | None => driver db
           end)
          (insert_one ride_oid ride_ (ride db))).
Proof.
  intros H Hc Hfresh.
  pose proof (request_ride_run _ ride_oid _ _ _ _ H) as Hrun. simpl in Hrun.
  rewrite (parse_canonical _ Hc) in Hrun.
  rewrite (find_one_insert_one_fresh _ _ _ Hfresh) in Hrun. exact Hrun.
Qed.

Lemma select_driver_none (p : Location R) (l : list (Doc (Driver.t R))) :
  select_driver p l = None <-> l = [].
Proof.
  split; [|now intros ->].
  destruct l as [|x l]; [reflexivity|]. unfold select_driver. simpl.
  rewrite hd_insert_sorted. discriminate.
Qed.

Lemma select_driver_In (p : Location R) (l : list (Doc (Driver.t R))) d :
  select_driver p l = Some d -> In d l.
Proof.
  unfold select_driver. destruct l as [|x l]; [discriminate|].
  apply hd_sort_In.
Qed.

(** C2.  For a request whose rider resolves, and a ride identity that is
    new to the ride collection, [request_ride] returns the ride it just
    stored: with no available driver its status is "requested" and its
    [driver_id] is null; with a selected driver its status is "assigned"
    and its [driver_id] is that driver's identity.  No driver is selected
    exactly when none is available. *)
Theorem request_ride_status_and_driver
    rider_oid ride_oid (data : RideRequest R) db rid db1 :
  resolve_rider rider_oid data db = (Return rid, db1) ->
  ObjectId.canonical ride_oid = true ->
  find_one (by_id ride_oid) (ride db) = None ->
  exists json db',
    request_ride rider_oid ride_oid data db = (Return (Some json), db') /\
    find_one (by_id ride_oid) (ride db') = Some (mkDoc ride_oid (body json)) /\
    id json = ObjectId.str ride_oid /\
    Ride.rider_id (body json) = rid /\
    (available_drivers db = [] ->
     Ride.status (body json) = "requested" /\ Ride.driver_id (body json) = None) /\
    (forall d, select_driver (pickup data) (available_drivers db) = Some d ->
     Ride.status (body json) = "assigned" /\
     Ride.driver_id (body json) = Some (ObjectId.str (_id d))) /\
    (select_driver (pickup data) (available_drivers db) = None <->
     available_drivers db = []).
Proof.
  intros H Hc Hfresh.
  pose proof (request_ride_stored _ _ _ _ _ _ H Hc Hfresh) as Hrun. simpl in Hrun.
  eexists. eexists. split; [exact Hrun|]. simpl.
  split; [now apply find_one_insert_one_fresh|].
  split; [reflexivity|]. split; [reflexivity|].
  split; [|split; [|apply select_driver_none]].
  - intros Hnil. rewrite Hnil. simpl. auto.
  - intros d Hsel. rewrite Hsel. auto.
Qed.

(** C3.  When [request_ride] selects a driver, a fetch of that driver from
    the store the request leaves finds it with [is_available = false] and its
    identity and every other field as they were, and a fetch of any other
    identity finds what it found before; when no driver is selected the
    driver collection is left as it was.  Identities are unique in the driver
    collection. *)
Theorem request_ride_marks_driver_unavailable
    rider_oid ride_oid (data : RideRequest R) db rid db1 :
  resolve_rider rider_oid data db = (Return rid, db1) ->
  NoDup (map _id (driver db)) ->
  (forall d, select_driver (pickup data) (available_drivers db) = Some d ->
     (exists d',
        find_one (by_id (_id d))
          (driver (snd (request_ride rider_oid ride_oid data db))) = Some d' /\
        Driver.is_available (fields d') = false /\
        _id d' = _id d /\
        Driver.name (fields d') = Driver.name (fields d) /\
        Driver.car (fields d') = Driver.car (fields d) /\
        Driver.plate (fields d') = Driver.plate (fields d) /\
        Driver.location (fields d') = Driver.location (fields d) /\
        Driver.created_at (fields d') = Driver.created_at (fields d) /\
        Driver.updated_at (fields d') = Driver.updated_at (fields d)) /\
     forall j, j <> _id d ->
       find_one (by_id j) (driver (snd (request_ride rider_oid ride_oid data db)))
       = find_one (by_id j) (driver db)) /\
  (select_driver (pickup data) (available_drivers db) = None ->
     driver (snd (request_ride rider_oid ride_oid data db)) = driver db).
Proof.
  intros H Hnd.
  pose proof (request_ride_run _ ride_oid _ _ _ _ H) as Hrun. simpl in Hrun.
  rewrite Hrun. simpl. split.
  - intros d Hsel. rewrite Hsel. split.
    + eexists. split.
      * apply find_one_update_one_same. apply find_one_unique; [exact Hnd|].
        pose proof (select_driver_In _ _ _ Hsel) as Hin.
        unfold available_drivers, find in Hin. apply filter_In in Hin. tauto.
      * simpl. repeat split; reflexivity.
    + intros j Hj. now apply find_one_update_one_other.
  - intros Hsel. now rewrite Hsel.
Qed.

(** The key [request_ride] sorts by. *)
Lemma dist2_spec (p : Location R) (d : Doc (Driver.t R)) :
  dist2 p d
  = match Driver.location (fields d) with
    | Some loc =>
        Finite (add (sq (sub (lat loc) (lat p))) (sq (sub (lng loc) (lng p))))
    | None => Infinity
    end.
Proof. reflexivity. Qed.

(** C1.  For a request whose rider resolves (and a ride identity new to the
    ride collection), when some available driver has a recorded location
    the ride returned carries the identity of an available driver [m] with
    a recorded location such that no available driver has a smaller squared
    distance to the pickup, a driver without a location counting as
    infinitely far, and every available driver the store lists before [m]
    is strictly farther: [m] is the first of the nearest. *)
Theorem request_ride_assigns_nearest {ord : NumberOrder R}
    rider_oid ride_oid (data : RideRequest R) db rid db1 :
  resolve_rider rider_oid data db = (Return rid, db1) ->
  ObjectId.canonical ride_oid = true ->
  find_one (by_id ride_oid) (ride db) = None ->
  (exists d, In d (available_drivers db) /\ Driver.location (fields d) <> None) ->
  exists m before after json db',
    request_ride rider_oid ride_oid data db = (Return (Some json), db') /\
    Ride.driver_id (body json) = Some (ObjectId.str (_id m)) /\
    available_drivers db = before ++ m :: after /\
    (exists loc,
       Driver.location (fields m) = Some loc /\
       dist2 (pickup data) m
       = Finite (add (sq (sub (lat loc) (lat (pickup data))))
                     (sq (sub (lng loc) (lng (pickup data)))))) /\
    (forall d, Driver.location (fields d) = None ->
               dist2 (pickup data) d = Infinity) /\
    (forall d, In d (available_drivers db) ->
               dist_ltb (dist2 (pickup data) d) (dist2 (pickup data) m) = false) /\
    (forall d, In d before ->
               dist_ltb (dist2 (pickup data) m) (dist2 (pickup data) d) = true).
Proof.
  intros H Hc Hfresh (d0 & Hd0 & Hloc0).
  destruct (select_driver (pickup data) (available_drivers db)) as [m|] eqn:Hsel.
  2:{ apply select_driver_none in Hsel. rewrite Hsel in Hd0. destruct Hd0. }
  assert (Hhd : hd_error (sort (dist2 (pickup data)) dist_ltb (available_drivers db))
                = Some m).
  { unfold select_driver in Hsel.
    destruct (available_drivers db); [discriminate | exact Hsel]. }
  destruct (hd_sort_first_least (dist2 (pickup data)) dist_ltb
              dist_ltb_irrefl dist_ltb_trans dist_ltb_cotrans _ _ Hhd)
    as (before & after & Hsplit & Hmin & Hbefore).
  pose proof (request_ride_stored _ _ _ _ _ _ H Hc Hfresh) as Hrun. simpl in Hrun.
  rewrite Hsel in Hrun.
  exists m, before, after. eexists. eexists.
  split; [exact Hrun|]. simpl.
  split; [reflexivity|].
  split; [exact Hsplit|].
  split; [|split; [|split; [exact Hmin | exact Hbefore]]].
  - specialize (Hmin d0 Hd0). rewrite !dist2_spec in Hmin.
    rewrite dist2_spec.
    destruct (Driver.location (fields m)) as [loc|]; [eauto|].
    destruct (Driver.location (fields d0)); [discriminate | congruence].
  - intros d Hd. rewrite dist2_spec, Hd. reflexivity.
Qed.

Lemma resolve_rider_by_identity rider_oid (data : RideRequest R) db :
  truthy (rider_id data) = true ->
  snd (resolve_rider rider_oid data db) = db /\
  forall oid' name,
    resolve_rider rider_oid data db
    = resolve_rider oid' (mkRideRequest (rider_id data) name (pickup data) (dropoff data)) db.
Proof.
  intros Ht. unfold resolve_rider. simpl. rewrite Ht. simpl. split; [|reflexivity].
  destruct (ObjectId.is_valid (the (rider_id data))); simpl; [|reflexivity].
  run. destruct (ObjectId.parse (the (rider_id data))); simpl; [|reflexivity].
  destruct (count_documents _ _ =? 0)%Z; reflexivity.
Qed.

Lemma request_ride_rider_frame rider_oid ride_oid (data : RideRequest R) db :
  rider (snd (request_ride rider_oid ride_oid data db))
  = rider (snd (resolve_rider rider_oid data db)).
Proof.
  destruct (resolve_rider rider_oid data db) as [[rid|e] db1] eqn:H.
  - pose proof (request_ride_run _ ride_oid _ _ _ _ H) as Hrun. simpl in Hrun.
    rewrite Hrun. reflexivity.
  - now rewrite (request_ride_raise _ ride_oid _ _ _ _ H).
Qed.

(** C6.  Rider resolution in [request_ride].  A supplied (non-empty) rider
    identity that is malformed makes the request fail with "Invalid rider
    id" (400), and a well-formed one that names no rider with "Rider not
    found" (404), the store untouched; one that names a rider resolves to
    it and creates nothing.  With no identity but a (non-empty) name, a
    rider with that name, no phone and the default timestamps is stored
    first, and the request goes on with its identity.  With neither, the
    request fails with "Provide rider_id or rider_name" (400) and the store
    is untouched. *)
Theorem request_ride_rider_resolution
    rider_oid ride_oid (data : RideRequest R) db :
  (truthy (rider_id data) = true ->
   ObjectId.is_valid (the (rider_id data)) = false ->
   request_ride rider_oid ride_oid data db
   = (Raise (HTTPException 400 "Invalid rider id"), db) /\
   InvalidID (HTTPException 400 "Invalid rider id")) /\
  (forall k,
     truthy (rider_id data) = true ->
     ObjectId.parse (the (rider_id data)) = Some k ->
     find_one (by_id k) (rider db) = None ->
     request_ride rider_oid ride_oid data db
     = (Raise (HTTPException 404 "Rider not found"), db) /\
     NotFound (HTTPException 404 "Rider not found")) /\
  (forall k r,
     truthy (rider_id data) = true ->
     ObjectId.parse (the (rider_id data)) = Some k ->
     find_one (by_id k) (rider db) = Some r ->
     resolve_rider rider_oid data db = (Return (the (rider_id data)), db)) /\
  (truthy (rider_id data) = false ->
   truthy (rider_name data) = true ->
   let new_rider := mkDoc rider_oid (Rider.make (the (rider_name data)) None None None) in
   resolve_rider rider_oid data db
   = (Return (ObjectId.str rider_oid),
      mkDB (rider db ++ [new_rider]) (driver db) (ride db)) /\
   rider (snd (request_ride rider_oid ride_oid data db)) = rider db ++ [new_rider]) /\
  (truthy (rider_id data) = false ->
   truthy (rider_name data) = false ->
   request_ride rider_oid ride_oid data db
   = (Raise (HTTPException 400 "Provide rider_id or rider_name"), db) /\
   BadRequest (HTTPException 400 "Provide rider_id or rider_name")).
Proof.
  repeat split.
  - apply request_ride_raise. now apply resolve_rider_malformed.
  - unfold InvalidID. auto.
  - apply request_ride_raise. now apply resolve_rider_absent with k.
  - now exists "Rider not found".
  - intros. now apply resolve_rider_present with k r.
  - now apply resolve_rider_created.
  - rewrite request_ride_rider_frame, resolve_rider_created by assumption.
    reflexivity.
  - apply request_ride_raise. now apply resolve_rider_missing.
  - now exists "Provide rider_id or rider_name".
  - unfold InvalidID. intros [E|[E|E]]; discriminate.
Qed.

(** C10.  When a request supplies a (non-empty) rider identity, what
    [request_ride] returns and the store it leaves are the same whatever
    the rider name is (and whatever identity a new rider would have got),
    and the rider collection is left as it was: no rider is created. *)
Theorem request_ride_identity_over_name
    rider_oid ride_oid (data : RideRequest R) db :
  truthy (rider_id data) = true ->
  (forall oid' name,
     request_ride rider_oid ride_oid data db
     = request_ride oid' ride_oid
         (mkRideRequest (rider_id data) name (pickup data) (dropoff data)) db) /\
  rider (snd (request_ride rider_oid ride_oid data db)) = rider db.
Proof.
  intros Ht. destruct (resolve_rider_by_identity rider_oid data db Ht) as [Hpure Hsame].
  split.
  - intros oid' name. unfold request_ride, bind.
    rewrite (Hsame oid' name). reflexivity.
  - now rewrite request_ride_rider_frame, Hpure.
Qed.

(** ** Fetching a ride *)

Lemma get_ride_malformed (ride_id : string) db :
  ObjectId.is_valid ride_id = false ->
  get_ride ride_id db = (Raise (HTTPException 400 "Invalid ride id"), db).
Proof. intros Hv. unfold get_ride. now rewrite Hv. Qed.

Lemma get_ride_absent (ride_id : string) db k :
  ObjectId.parse ride_id = Some k ->
  find_one (by_id k) (ride db) = None ->
  get_ride ride_id db = (Raise (HTTPException 404 "Ride not found"), db).
Proof.
  intros Hk Hnone. unfold get_ride. rewrite (parse_is_valid _ _ Hk). run.
  rewrite Hk. simpl. now rewrite Hnone.
Qed.

Lemma get_ride_present (ride_id : string) db k (d : Doc (Ride.t R)) :
  ObjectId.parse ride_id = Some k ->
  find_one (by_id k) (ride db) = Some d ->
  get_ride ride_id db = (Return (serialize (Some d)), db).
Proof.
  intros Hk Hd. unfold get_ride. rewrite (parse_is_valid _ _ Hk). run.
  rewrite Hk. simpl. now rewrite Hd.
Qed.

(** ** Listing rides *)

Lemma list_rides_run (rider_id_ driver_id_ : option string) (limit_ : Z) db :
  list_rides rider_id_ driver_id_ limit_ db
  = (Return (map (fun r => serialize (Some r))
               (limit limit_
                  (find (matches (list_rides_filter rider_id_ driver_id_)) (ride db)))),
     db).
Proof. reflexivity. Qed.

Lemma list_rides_filter_malformed_rider (rider_id_ driver_id_ : option string) :
  ObjectId.is_valid (the rider_id_) = false ->
  list_rides_filter rider_id_ driver_id_ = list_rides_filter None driver_id_.
Proof.
  intros Hv. unfold list_rides_filter. rewrite Hv, andb_false_r. reflexivity.
Qed.

Lemma list_rides_filter_malformed_driver (rider_id_ driver_id_ : option string) :
  ObjectId.is_valid (the driver_id_) = false ->
  list_rides_filter rider_id_ driver_id_ = list_rides_filter rider_id_ None.
Proof.
  intros Hv. unfold list_rides_filter. rewrite Hv, andb_false_r. reflexivity.
Qed.

(** C8, as the code has it.  [list_rides] never raises and never changes
    the store.  A malformed rider or driver identity is dropped from the
    filter: the query answers what it answers without that filter.  Every
    ride returned is a stored ride, given with its identity under [id] and
    its fields as stored, that agrees with each well-formed identity given.
    A limit other than 0 caps the answer at [abs(limit)] rides; a limit of 0
    does not cap it: every matching ride is returned. *)
Theorem list_rides_ignores_malformed_filters
    (rider_id_ driver_id_ : option string) (limit_ : Z) db :
  exists l,
    list_rides rider_id_ driver_id_ limit_ db = (Return l, db) /\
    (ObjectId.is_valid (the rider_id_) = false ->
     list_rides rider_id_ driver_id_ limit_ db = list_rides None driver_id_ limit_ db) /\
    (ObjectId.is_valid (the driver_id_) = false ->
     list_rides rider_id_ driver_id_ limit_ db = list_rides rider_id_ None limit_ db) /\
    (forall x, In x l ->
       exists r, In r (ride db) /\
         x = Some (mkJson (ObjectId.str (_id r)) (fields r)) /\
         (ObjectId.is_valid (the rider_id_) = true ->
          Ride.rider_id (fields r) = the rider_id_) /\
         (ObjectId.is_valid (the driver_id_) = true ->
          Ride.driver_id (fields r) = Some (the driver_id_))) /\
    (limit_ <> 0 -> (List.length l <= Z.abs_nat limit_)%nat) /\
    (limit_ = 0 ->
     l = map (fun r => Some (mkJson (ObjectId.str (_id r)) (fields r)))
           (find (matches (list_rides_filter rider_id_ driver_id_)) (ride db))).
Proof.
  eexists. split; [apply list_rides_run|].
  split; [|split; [|split; [|split]]].
  - intros Hv. rewrite !list_rides_run.
    now rewrite list_rides_filter_malformed_rider.
  - intros Hv. rewrite !list_rides_run.
    now rewrite list_rides_filter_malformed_driver.
  - intros x Hx. apply in_map_iff in Hx. destruct Hx as (r & <- & Hr).
    apply limit_incl in Hr. unfold find in Hr. apply filter_In in Hr.
    destruct Hr as [Hin Hm]. exists r. split; [exact Hin|]. split; [reflexivity|].
    unfold matches, list_rides_filter in Hm. simpl in Hm.
    apply andb_true_iff in Hm. destruct Hm as [Hm1 Hm2]. split.
    + intros Hv. rewrite Hv, andb_true_r in Hm1.
      assert (Ht : truthy rider_id_ = true).
      { destruct rider_id_ as [v|]; [now apply is_valid_nonempty | discriminate]. }
      rewrite Ht in Hm1. now apply String.eqb_eq.
    + intros Hv. rewrite Hv, andb_true_r in Hm2.
      assert (Ht : truthy driver_id_ = true).
      { destruct driver_id_ as [v|]; [now apply is_valid_nonempty | discriminate]. }
      rewrite Ht in Hm2.
      destruct (Ride.driver_id (fields r)) as [s'|]; [|discriminate].
      apply String.eqb_eq in Hm2. now subst.
  - intros Hn. rewrite length_map. now apply length_limit.
  - intros ->. reflexivity.
Qed.
End Properties.

(** * The model at work on the example fleet *)

Lemma Q_ltb_lt (x y : Q) : ltb x y = true <-> (x < y)%Q.
Proof.
  simpl. rewrite negb_true_iff. split.
  - intros H. apply Qnot_le_lt. intros Hle.
    apply Qle_bool_iff in Hle. congruence.
  - intros H. destruct (Qle_bool y x) eqn:E; [|reflexivity].
    apply Qle_bool_iff in E. exfalso. now apply (Qlt_not_le x y).
Qed.

#[export] Instance Q_NumberOrder : NumberOrder Q.
Proof.
  split.
  - intros x. destruct (ltb x x) eqn:E; [|reflexivity].
    apply Q_ltb_lt in E. exfalso. now apply (Qlt_irrefl x).
  - intros x y z Hxy Hyz. apply Q_ltb_lt in Hxy, Hyz. apply Q_ltb_lt.
    now apply Qlt_trans with y.
  - intros x y z Hxz. apply Q_ltb_lt in Hxz.
    destruct (Qlt_le_dec x y) as [Hlt|Hle].
    + left. now apply Q_ltb_lt.
    + right. apply Q_ltb_lt. now apply Qle_lt_trans with x.
Qed.

Import Example.

(** Alice asks for a ride from the origin, where Fay (no location), Dan at
    (10, 10) and Eve at (1, 1) are available and Gus, at the origin, is busy. *)
Lemma request_ride_assigns_nearest_witness :
  resolve_rider oid_new1 (from_origin (Some oid_a) None) fleet = (Return oid_a, fleet) /\
  ObjectId.canonical oid_new2 = true /\
  find_one (by_id oid_new2) (ride fleet) = None /\
  (exists d, In d (available_drivers fleet) /\ Driver.location (fields d) <> None) /\
  exists m before after json db',
    request_ride oid_new1 oid_new2 (from_origin (Some oid_a) None) fleet
    = (Return (Some json), db') /\
    Ride.driver_id (body json) = Some (ObjectId.str (_id m)) /\
    available_drivers fleet = before ++ m :: after /\
    (forall d, In d (available_drivers fleet) ->
       dist_ltb (dist2 (at_ 0 0) d) (dist2 (at_ 0 0) m) = false) /\
    (forall d, In d before ->
       dist_ltb (dist2 (at_ 0 0) m) (dist2 (at_ 0 0) d) = true).
Proof.
  assert (Hloc : exists d, In d (available_drivers fleet)
                           /\ Driver.location (fields d) <> None).
  { exists dan. split; [vm_compute; tauto | discriminate]. }
  split; [reflexivity|]. split; [reflexivity|]. split; [reflexivity|].
  split; [exact Hloc|].
  destruct (request_ride_assigns_nearest
              oid_new1 oid_new2 (from_origin (Some oid_a) None) fleet oid_a fleet
              eq_refl eq_refl eq_refl Hloc)
    as (m & before & after & json & db' & Hrun & Hid & Hsplit & _ & _ & Hmin & Hbefore).
  exists m, before, after, json, db'. auto.
Defined.

(** The same request, evaluated: Eve, the nearest located driver, is assigned. *)
Example request_ride_fleet :
  let run := request_ride oid_new1 oid_new2 (from_origin (Some oid_a) None) fleet in
  fst run
  = Return (Some (mkJson oid_new2
                    (Ride.make oid_a (Some oid_c) (at_ 0 0) (at_ 5 5) "assigned" None None))) /\
  option_map (fun d => Driver.is_available (fields d))
    (find_one (by_id oid_c) (driver (snd run)))
  = Some false.
Proof. split; reflexivity. Qed.

Lemma request_ride_status_and_driver_witness :
  resolve_rider oid_new1 (from_origin (Some oid_a) None) nobody = (Return oid_a, nobody) /\
  ObjectId.canonical oid_new2 = true /\
  find_one (by_id oid_new2) (ride nobody) = None /\
  exists json db',
    request_ride oid_new1 oid_new2 (from_origin (Some oid_a) None) nobody
    = (Return (Some json), db') /\
    (available_drivers nobody = [] ->
     Ride.status (body json) = "requested" /\ Ride.driver_id (body json) = None).
Proof.
  split; [reflexivity|]. split; [reflexivity|]. split; [reflexivity|].
  destruct (request_ride_status_and_driver
              oid_new1 oid_new2 (from_origin (Some oid_a) None) nobody oid_a nobody
              eq_refl eq_refl eq_refl)
    as (json & db' & Hrun & _ & _ & _ & Hnone & _).
  exists json, db'. auto.
Defined.

Lemma fleet_ids_unique : NoDup (map _id (driver fleet)).
Proof.
  repeat constructor; simpl; intuition discriminate.
Qed.

Lemma request_ride_marks_driver_unavailable_witness :
  resolve_rider oid_new1 (from_origin (Some oid_a) None) fleet = (Return oid_a, fleet) /\
  NoDup (map _id (driver fleet)) /\
  select_driver (at_ 0 0) (available_drivers fleet) = Some eve /\
  Driver.is_available (fields eve) = true /\
  exists d',
    find_one (by_id oid_c)
      (driver (snd (request_ride oid_new1 oid_new2 (from_origin (Some oid_a) None) fleet)))
    = Some d' /\
    Driver.is_available (fields d') = false /\
    Driver.name (fields d') = "Eve".
Proof.
  split; [reflexivity|]. split; [exact fleet_ids_unique|]. split; [reflexivity|].
  split; [reflexivity|].
  destruct (request_ride_marks_driver_unavailable
              oid_new1 oid_new2 (from_origin (Some oid_a) None) fleet oid_a fleet
              eq_refl fleet_ids_unique) as [Hsel _].
  destruct (Hsel eve eq_refl) as [(d' & Hfetch & Hbusy & _ & Hname & _) _].
  exists d'. exact (conj Hfetch (conj Hbusy Hname)).
Defined.

Lemma update_ride_status_releases_driver_witness :
  mem "completed" allowed = true /\
  ObjectId.parse oid_f = Some oid_f /\
  find_one (by_id oid_f) (ride fleet) = Some trip /\
  Ride.driver_id (fields trip) = Some oid_e /\
  ObjectId.parse oid_e = Some oid_e /\
  find_one (by_id oid_e) (driver fleet) = Some gus /\
  Driver.is_available (fields gus) = false /\
  exists json db' d',
    update_ride_status oid_f "completed" fleet = (Return (Some json), db') /\
    Ride.status (body json) = "completed" /\
    find_one (by_id oid_e) (driver db') = Some d' /\
    Driver.is_available (fields d') = true /\
    Driver.name (fields d') = "Gus".
Proof.
  repeat (split; [reflexivity|]).
  destruct (update_ride_status_releases_driver
              oid_f "completed" fleet oid_f trip oid_e oid_e gus
              eq_refl eq_refl eq_refl eq_refl eq_refl eq_refl)
    as (json & db' & Hrun & Hst & Hrel & _).
  destruct (Hrel eq_refl) as (d' & Hfetch & Hfree & _ & Hname & _).
  exists json, db', d'.
  exact (conj Hrun (conj Hst (conj Hfetch (conj Hfree Hname)))).
Defined.

Lemma update_ride_status_rejects_unknown_status_witness :
  mem "flying" allowed = false /\
  exists e,
    update_ride_status oid_f "flying" fleet = (Raise e, fleet) /\
    e = HTTPException 400 "Invalid status" /\
    BadRequest e.
Proof.
  split; [reflexivity|].
  destruct (update_ride_status_rejects_unknown_status oid_f "flying" fleet eq_refl)
    as (e & Hrun & Hvalid & _).
  exists e. split; [exact Hrun | exact (Hvalid eq_refl)].
Defined.

Lemma request_ride_rider_resolution_witness :
  truthy (rider_id (from_origin None (Some "Bob"))) = false /\
  truthy (rider_name (from_origin None (Some "Bob"))) = true /\
  rider (snd (request_ride oid_new1 oid_new2 (from_origin None (Some "Bob")) fleet))
  = [alice; mkDoc oid_new1 (Rider.make "Bob" None None None)].
Proof.
  split; [reflexivity|]. split; [reflexivity|].
  destruct (request_ride_rider_resolution
              oid_new1 oid_new2 (from_origin None (Some "Bob")) fleet)
    as (_ & _ & _ & Hnew & _).
  destruct (Hnew eq_refl eq_refl) as [_ Hriders]. exact Hriders.
Defined.

Lemma list_rides_ignores_malformed_filters_witness :
  ObjectId.is_valid (the (Some "xyz")) = false /\
  list_rides (Some "xyz") None 5 fleet = list_rides None None 5 fleet /\
  list_rides None None 5 fleet
  = (Return [Some (mkJson oid_f
                     (Ride.make oid_a (Some oid_e) (at_ 0 0) (at_ 5 5) "assigned" None None))],
     fleet).
Proof.
  split; [reflexivity|].
  destruct (list_rides_ignores_malformed_filters (Some "xyz") None 5 fleet)
    as (l & _ & Hdrop & _).
  split; [exact (Hdrop eq_refl) | reflexivity].
Defined.

Lemma update_driver_location_frame_witness :
  ObjectId.parse oid_b = Some oid_b /\
  find_one (by_id oid_b) (driver fleet) = Some dan /\
  exists d' db',
    update_driver_location oid_b (mkDriverLocationUpdate (at_ 2 3) None) fleet
    = (Return (serialize (Some d')), db') /\
    Driver.location (fields d') = Some (at_ 2 3) /\
    Driver.is_available (fields d') = Driver.is_available (fields dan) /\
    Driver.name (fields d') = Driver.name (fields dan) /\
    Driver.car (fields d') = Driver.car (fields dan) /\
    Driver.plate (fields d') = Driver.plate (fields dan).
Proof.
  split; [reflexivity|]. split; [reflexivity|].
  destruct (update_driver_location_frame
              oid_b (mkDriverLocationUpdate (at_ 2 3) None) fleet oid_b dan
              eq_refl eq_refl)
    as (d' & db' & Hrun & _ & Hloc & Hav & _ & Hname & Hcar & Hplate & _).
  exists d', db'.
  exact (conj Hrun (conj Hloc (conj Hav (conj Hname (conj Hcar Hplate))))).
Defined.

Lemma request_ride_identity_over_name_witness :
  truthy (rider_id (from_origin (Some oid_a) (Some "Bob"))) = true /\
  request_ride oid_new1 oid_new2 (from_origin (Some oid_a) (Some "Bob")) fleet
  = request_ride oid_new1 oid_new2 (from_origin (Some oid_a) None) fleet /\
  rider (snd (request_ride oid_new1 oid_new2 (from_origin (Some oid_a) (Some "Bob")) fleet))
  = [alice].
Proof.
  split; [reflexivity|].
  destruct (request_ride_identity_over_name
              oid_new1 oid_new2 (from_origin (Some oid_a) (Some "Bob")) fleet eq_refl)
    as [Hsame Hriders].
  split; [exact (Hsame oid_new1 None) | exact Hriders].
Defined.

(** ** Where the code departs from the specification *)

(** C5.  A malformed ride identity with the status "flying": the identity is
    refused first, as an invalid identity and not as a bad request. *)
Lemma update_ride_status_checks_identity_first :
  mem "flying" allowed = false /\
  update_ride_status "xyz" "flying" fleet
  = (Raise (HTTPException 400 "Invalid ride id"), fleet) /\
  InvalidID (HTTPException 400 "Invalid ride id") /\
  ~ BadRequest (HTTPException 400 "Invalid ride id").
Proof.
  split; [reflexivity|]. split; [reflexivity|].
  assert (H : InvalidID (HTTPException 400 "Invalid ride id"))
    by (unfold InvalidID; auto).
  split; [exact H|]. intros [_ Hn]. exact (Hn H).
Qed.

(** C8.  With a limit of 0 the one stored ride is returned: more than 0
    rides.  With a limit of -1 it is returned as well. *)
Lemma list_rides_limit_zero_returns_all :
  exists l,
    list_rides None None 0 fleet = (Return l, fleet) /\
    ~ (Z.of_nat (List.length l) <= 0)%Z /\
    list_rides None None (-1) fleet = (Return l, fleet).
Proof.
  eexists. split; [reflexivity|]. split; [|reflexivity].
  simpl. lia.
Qed.

(** ** The scenarios of the specification *)

(** A driver at (10, 10); a request naming a new rider, from (10, 10) to
    (11, 11), is assigned that driver, and completing the ride makes the
    driver available again. *)
Example scenario_assign_then_complete :
  let d := mkDoc oid_b (Driver.make "D" None None (Some (at_ 10 10)) true None None) in
  let db0 : DB Q := mkDB [alice] [d] [] in
  let data := mkRideRequest None (Some "Alice") (at_ 10 10) (at_ 11 11) in
  let requested := request_ride oid_new1 oid_new2 data db0 in
  let completed := update_ride_status oid_new2 "completed" (snd requested) in
  fst requested
  = Return (Some (mkJson oid_new2
                    (Ride.make oid_new1 (Some oid_b) (at_ 10 10) (at_ 11 11)
                       "assigned" None None))) /\
  option_map (fun x => Driver.is_available (fields x))
    (find_one (by_id oid_b) (driver (snd requested))) = Some false /\
  fst completed
  = Return (Some (mkJson oid_new2
                    (Ride.make oid_new1 (Some oid_b) (at_ 10 10) (at_ 11 11)
                       "completed" None None))) /\
  option_map (fun x => Driver.is_available (fields x))
    (find_one (by_id oid_b) (driver (snd completed))) = Some true.
Proof. repeat split; reflexivity. Qed.

(** No driver exists: the ride of an existing rider is stored as requested. *)
Example scenario_no_driver :
  fst (request_ride oid_new1 oid_new2 (from_origin (Some oid_a) None) nobody)
  = Return (Some (mkJson oid_new2
                    (Ride.make oid_a None (at_ 0 0) (at_ 5 5) "requested" None None))).
Proof. reflexivity. Qed.

(** A status of "flying" is refused and the stored ride keeps its status. *)
Example scenario_flying :
  update_ride_status oid_f "flying" fleet
  = (Raise (HTTPException 400 "Invalid status"), fleet) /\
  option_map (fun r => Ride.status (fields r)) (find_one (by_id oid_f) (ride fleet))
  = Some "assigned".
Proof. split; reflexivity. Qed.

(** * Further properties of the handlers *)

Section MoreCollectionFacts.
Context {M : Type}.
Implicit Types (c : list (Doc M)) (d : Doc M) (k j : ObjectId).

Lemma update_one_ids p (set : M -> M) c :
  map _id (update_one p set c) = map _id c.
Proof.
  induction c as [|x c IH]; simpl; [reflexivity|].
  destruct (p x); simpl; [reflexivity | now rewrite IH].
Qed.

Lemma update_one_no_match p (set : M -> M) c :
  find_one p c = None -> update_one p set c = c.
Proof.
  induction c as [|x c IH]; simpl; [reflexivity|].
  destruct (p x); [discriminate|]. intros H. now rewrite IH.
Qed.

Lemma insert_one_ids k (m : M) c :
  map _id (insert_one k m c) = map _id c ++ [k].
Proof. unfold insert_one. now rewrite map_app. Qed.

Lemma find_one_insert_one_other k j (m : M) c :
  j <> k ->
  find_one (by_id j) (insert_one k m c) = find_one (by_id j) c.
Proof.
  intros Hjk. unfold insert_one. induction c as [|x c IH]; simpl.
  - assert (H : by_id j (mkDoc k m) = false) by now apply by_id_false.
    now rewrite H.
  - destruct (by_id j x); [reflexivity | exact IH].
Qed.

Lemma find_one_absent_ids k c :
  find_one (by_id k) c = None <-> ~ In k (map _id c).
Proof.
  induction c as [|x c IH]; simpl; [tauto|].
  destruct (by_id k x) eqn:E.
  - apply by_id_true in E. split; [discriminate | intros H; exfalso; auto].
  - apply by_id_false in E. rewrite IH. split.
    + intros H [Hx|Hin]; auto.
    + intros H Hin. auto.
Qed.

Lemma update_one_twice k (f g : M -> M) c :
  update_one (by_id k) g (update_one (by_id k) f c)
  = update_one (by_id k) (fun m => g (f m)) c.
Proof.
  induction c as [|x c IH]; simpl; [reflexivity|].
  destruct (by_id k x) eqn:E; simpl.
  - unfold by_id in *. simpl. now rewrite E.
  - now rewrite E, IH.
Qed.

Lemma update_one_id k (f : M -> M) c :
  (forall d, find_one (by_id k) c = Some d -> f (fields d) = fields d) ->
  update_one (by_id k) f c = c.
Proof.
  induction c as [|x c IH]; simpl; [reflexivity|].
  destruct (by_id k x) eqn:E; intros H.
  - rewrite (H x eq_refl). now destruct x.
  - now rewrite IH.
Qed.

Lemma update_one_ext p (f g : M -> M) c :
  (forall m, f m = g m) -> update_one p f c = update_one p g c.
Proof.
  intros Hfg. induction c as [|x c IH]; simpl; [reflexivity|].
  destruct (p x); [now rewrite Hfg | now rewrite IH].
Qed.

Lemma In_update_one p (f : M -> M) c x :
  In x (update_one p f c) ->
  In x c \/ exists d, In d c /\ x = mkDoc (_id d) (f (fields d)).
Proof.
  induction c as [|y c IH]; simpl; [tauto|].
  destruct (p y); simpl.
  - intros [<-|Hx]; [right; exists y; auto | left; auto].
  - intros [<-|Hx]; [left; auto|].
    destruct (IH Hx) as [H|(d & Hd & ->)]; [left; auto | right; exists d; auto].
Qed.

Lemma find_one_insert_one_some k (m : M) c :
  exists d, find_one (by_id k) (insert_one k m c) = Some d.
Proof.
  destruct (find_one (by_id k) c) as [d|] eqn:E.
  - exists d. unfold insert_one. revert E.
    induction c as [|x c IH]; simpl; [discriminate|].
    destruct (by_id k x); [trivial | exact IH].
  - eexists. now apply find_one_insert_one_fresh.
Qed.

Lemma limit_zero' c : limit 0 c = c.
Proof. reflexivity. Qed.

Lemma limit_prefix (n : Z) c : exists rest, c = limit n c ++ rest.
Proof.
  unfold limit. destruct (n =? 0)%Z.
  - exists []. now rewrite app_nil_r.
  - exists (skipn (Z.abs_nat n) c). now rewrite firstn_skipn.
Qed.
End MoreCollectionFacts.

Section MoreProperties.
Context {R : Type} {num : Number R}.
Implicit Types (db : DB R) (k j : ObjectId).

Lemma db_eta db : mkDB (rider db) (driver db) (ride db) = db.
Proof. now destruct db. Qed.

(** ** Driver location: the failures *)

Lemma update_driver_location_malformed
    (driver_id : string) (payload : DriverLocationUpdate R) db :
  ObjectId.is_valid driver_id = false ->
  update_driver_location driver_id payload db
  = (Raise (HTTPException 400 "Invalid driver id"), db).
Proof. intros Hv. unfold update_driver_location. now rewrite Hv. Qed.

Lemma update_driver_location_absent
    (driver_id : string) (payload : DriverLocationUpdate R) db k :
  ObjectId.parse driver_id = Some k ->
  find_one (by_id k) (driver db) = None ->
  update_driver_location driver_id payload db
  = (Raise (HTTPException 404 "Driver not found"), db).
Proof.
  intros Hk Hnone. unfold update_driver_location.
  rewrite (parse_is_valid _ _ Hk). run. rewrite Hk. simpl.
  rewrite matched_count_find_one, Hnone. simpl.
  rewrite (update_one_no_match _ _ _ Hnone). now rewrite db_eta.
Qed.

(** X1.  [update_driver_location] with a malformed identity fails with
    "Invalid driver id" (400), and with a well-formed identity that names no
    driver with "Driver not found" (404); in both cases the store is left as
    it was. *)
Theorem update_driver_location_failures
    (driver_id : string) (payload : DriverLocationUpdate R) db :
  (ObjectId.is_valid driver_id = false ->
   update_driver_location driver_id payload db
   = (Raise (HTTPException 400 "Invalid driver id"), db) /\
   InvalidID (HTTPException 400 "Invalid driver id")) /\
  (forall k,
     ObjectId.parse driver_id = Some k ->
     find_one (by_id k) (driver db) = None ->
     update_driver_location driver_id payload db
     = (Raise (HTTPException 404 "Driver not found"), db) /\
     NotFound (HTTPException 404 "Driver not found")).
Proof.
  split.
  - intros Hv. split; [now apply update_driver_location_malformed|].
    unfold InvalidID. auto.
  - intros k Hk Hnone. split; [now apply update_driver_location_absent with k|].
    now exists "Driver not found".
Qed.

(** ** Ride status: the whole of it *)

(** What [update_ride_status] does to an existing ride. *)
Lemma update_ride_status_run
    (ride_id payload_status : string) db k (r : Doc (Ride.t R)) :
  mem payload_status allowed = true ->
  ObjectId.parse ride_id = Some k ->
  find_one (by_id k) (ride db) = Some r ->
  update_ride_status ride_id payload_status db
  = (Return (Some (mkJson (ObjectId.str (_id r)) (set_status payload_status (fields r)))),
     mkDB (rider db)
          (if mem payload_status ["completed"; "cancelled"]
              && truthy (Ride.driver_id (fields r))
           then
             match ObjectId.parse (the (Ride.driver_id (fields r))) with
             | Some j => update_one (by_id j) (set_is_available true) (driver db)
             | None => driver db
             end
           else driver db)
          (update_one (by_id k) (set_status payload_status) (ride db))).
Proof.
  intros Ha Hk Hr. unfold update_ride_status.
  rewrite (parse_is_valid _ _ Hk), Ha. run.
  rewrite Hk. simpl. rewrite Hr. simpl.
  destruct (mem payload_status ["completed"; "cancelled"]
            && truthy (Ride.driver_id (fields r))); simpl.
  - destruct (ObjectId.parse (the (Ride.driver_id (fields r)))); simpl;
      rewrite (find_one_update_one_same _ _ _ _ Hr); reflexivity.
  - rewrite (find_one_update_one_same _ _ _ _ Hr). reflexivity.
Qed.

Lemma update_ride_status_absent (ride_id payload_status : string) db k :
  mem payload_status allowed = true ->
  ObjectId.parse ride_id = Some k ->
  find_one (by_id k) (ride db) = None ->
  update_ride_status ride_id payload_status db
  = (Raise (HTTPException 404 "Ride not found"), db).
Proof.
  intros Ha Hk Hnone. unfold update_ride_status.
  rewrite (parse_is_valid _ _ Hk), Ha. run.
  rewrite Hk. simpl. now rewrite Hnone.
Qed.

(** X2.  [update_ride_status] with a well-formed identity that names no ride
    and an allowed status fails with "Ride not found" (404) and leaves the
    store as it was: no driver is released for a ride that does not exist. *)
Theorem update_ride_status_not_found
    (ride_id payload_status : string) db k :
  mem payload_status allowed = true ->
  ObjectId.parse ride_id = Some k ->
  find_one (by_id k) (ride db) = None ->
  update_ride_status ride_id payload_status db
  = (Raise (HTTPException 404 "Ride not found"), db) /\
  NotFound (HTTPException 404 "Ride not found").
Proof.
  intros Ha Hk Hnone. split; [|now exists "Ride not found"].
  now apply update_ride_status_absent with k.
Qed.

(** X3.  For an existing ride and any allowed status, whatever the ride's
    current status, [update_ride_status] returns the ride with its status
    replaced and its identity, rider, driver, pickup, dropoff and timestamps
    unchanged; [get_ride] on the same identity then returns that same ride;
    every other ride is fetched as before and the rider collection is
    untouched. *)
Theorem update_ride_status_frame
    (ride_id payload_status : string) db k (r : Doc (Ride.t R)) :
  mem payload_status allowed = true ->
  ObjectId.parse ride_id = Some k ->
  find_one (by_id k) (ride db) = Some r ->
  exists json db',
    update_ride_status ride_id payload_status db = (Return (Some json), db') /\
    id json = ObjectId.str (_id r) /\
    Ride.status (body json) = payload_status /\
    Ride.rider_id (body json) = Ride.rider_id (fields r) /\
    Ride.driver_id (body json) = Ride.driver_id (fields r) /\
    Ride.pickup (body json) = Ride.pickup (fields r) /\
    Ride.dropoff (body json) = Ride.dropoff (fields r) /\
    Ride.requested_at (body json) = Ride.requested_at (fields r) /\
    Ride.updated_at (body json) = Ride.updated_at (fields r) /\
    get_ride ride_id db' = (Return (Some json), db') /\
    (forall j, j <> k -> find_one (by_id j) (ride db') = find_one (by_id j) (ride db)) /\
    rider db' = rider db.
Proof.
  intros Ha Hk Hr.
  pose proof (update_ride_status_run _ _ _ _ _ Ha Hk Hr) as Hrun.
  eexists. eexists. split; [exact Hrun|]. simpl.
  repeat (split; [reflexivity|]).
  split; [|split; [|reflexivity]].
  - apply (get_ride_present ride_id _ k
             (mkDoc (_id r) (set_status payload_status (fields r))) Hk).
    simpl. now apply find_one_update_one_same.
  - intros j Hj. now apply find_one_update_one_other.
Qed.

(** X4.  The release of the driver cannot make a status update fail.  When
    the ride has no [driver_id] (null or empty), or its [driver_id] is not a
    well-formed identity, or it names no stored driver, an update to any
    allowed status, "completed" and "cancelled" included, still returns the
    updated ride and leaves the driver collection exactly as it was. *)
Theorem update_ride_status_release_is_best_effort
    (ride_id payload_status : string) db k (r : Doc (Ride.t R)) :
  mem payload_status allowed = true ->
  ObjectId.parse ride_id = Some k ->
  find_one (by_id k) (ride db) = Some r ->
  (truthy (Ride.driver_id (fields r)) = false \/
   ObjectId.parse (the (Ride.driver_id (fields r))) = None \/
   exists j, ObjectId.parse (the (Ride.driver_id (fields r))) = Some j /\
             find_one (by_id j) (driver db) = None) ->
  exists json db',
    update_ride_status ride_id payload_status db = (Return (Some json), db') /\
    Ride.status (body json) = payload_status /\
    driver db' = driver db.
Proof.
  intros Ha Hk Hr Hcase.
  pose proof (update_ride_status_run _ _ _ _ _ Ha Hk Hr) as Hrun.
  eexists. eexists. split; [exact Hrun|]. simpl. split; [reflexivity|].
  destruct Hcase as [Ht|[Hp|(j & Hj & Hnone)]].
  - now rewrite Ht, andb_false_r.
  - rewrite Hp. now destruct (_ && _).
  - rewrite Hj. destruct (_ && _); [|reflexivity].
    now apply update_one_no_match.
Qed.

(** ** A refused request changes nothing *)

Lemma resolve_rider_raise_pure rider_oid (data : RideRequest R) db e db1 :
  resolve_rider rider_oid data db = (Raise e, db1) -> db1 = db.
Proof.
  unfold resolve_rider.
  destruct (truthy (rider_id data)); simpl.
  - destruct (ObjectId.is_valid (the (rider_id data))); simpl.
    + run. destruct (ObjectId.parse (the (rider_id data))); simpl.
      * destruct (count_documents _ _ =? 0)%Z; intros H; now inversion H.
      * intros H; now inversion H.
    + run. intros H; now inversion H.
  - destruct (truthy (rider_name data)); run; intros H; now inversion H.
Qed.

Lemma update_driver_location_run
    (driver_id : string) (payload : DriverLocationUpdate R) db k
    (d : Doc (Driver.t R)) :
  ObjectId.parse driver_id = Some k ->
  find_one (by_id k) (driver db) = Some d ->
  update_driver_location driver_id payload db
  = (Return (Some (mkJson (ObjectId.str (_id d)) (set_location payload (fields d)))),
     mkDB (rider db)
          (update_one (by_id k) (set_location payload) (driver db))
          (ride db)).
Proof.
  intros Hk Hd. unfold update_driver_location.
  rewrite (parse_is_valid _ _ Hk). run. rewrite Hk. simpl.
  rewrite matched_count_find_one, Hd. simpl.
  rewrite (find_one_update_one_same _ _ _ _ Hd). reflexivity.
Qed.

(** X5.  Whenever [request_ride], [update_ride_status] or
    [update_driver_location] raises an [HTTPException], the store is exactly
    what it was before the call: every check that can refuse a request comes
    before the first write.  [get_ride] leaves the store as it was whatever
    it answers. *)
Theorem http_exception_leaves_store db db' (status_code : Z) (detail : string) :
  (forall rider_oid ride_oid (data : RideRequest R),
     request_ride rider_oid ride_oid data db
     = (Raise (HTTPException status_code detail), db') -> db' = db) /\
  (forall ride_id payload_status,
     update_ride_status ride_id payload_status db
     = (Raise (HTTPException status_code detail), db') -> db' = db) /\
  (forall driver_id (payload : DriverLocationUpdate R),
     update_driver_location driver_id payload db
     = (Raise (HTTPException status_code detail), db') -> db' = db) /\
  (forall ride_id out, get_ride ride_id db = (out, db') -> db' = db).
Proof.
  split; [|split; [|split]].
  - intros rider_oid ride_oid data H.
    destruct (resolve_rider rider_oid data db) as [[rid|e] db1] eqn:Hres.
    + pose proof (request_ride_run _ ride_oid _ _ _ _ Hres) as Hrun. simpl in Hrun.
      rewrite Hrun in H.
      destruct (ObjectId.parse (ObjectId.str ride_oid)); inversion H.
    + rewrite (request_ride_raise _ ride_oid _ _ _ _ Hres) in H.
      inversion H; subst. now apply resolve_rider_raise_pure in Hres.
  - intros ride_id payload_status H.
    destruct (ObjectId.is_valid ride_id) eqn:Hv.
    + destruct (mem payload_status allowed) eqn:Ha.
      * pose proof (parse_valid _ Hv) as Hk.
        destruct (find_one (by_id (ObjectId.binary ride_id)) (ride db)) as [r|] eqn:Hr.
        -- rewrite (update_ride_status_run _ _ _ _ _ Ha Hk Hr) in H. inversion H.
        -- rewrite (update_ride_status_absent _ _ _ _ Ha Hk Hr) in H.
           now inversion H.
      * unfold update_ride_status in H. rewrite Hv, Ha in H. now inversion H.
    + unfold update_ride_status in H. rewrite Hv in H. now inversion H.
  - intros driver_id payload H.
    destruct (ObjectId.is_valid driver_id) eqn:Hv.
    + pose proof (parse_valid _ Hv) as Hk.
      destruct (find_one (by_id (ObjectId.binary driver_id)) (driver db)) as [d|] eqn:Hd.
      * rewrite (update_driver_location_run _ _ _ _ _ Hk Hd) in H. inversion H.
      * rewrite (update_driver_location_absent _ _ _ _ Hk Hd) in H. now inversion H.
    + rewrite (update_driver_location_malformed _ _ _ Hv) in H. now inversion H.
  - intros ride_id out H.
    destruct (ObjectId.is_valid ride_id) eqn:Hv.
    + pose proof (parse_valid _ Hv) as Hk.
      destruct (find_one (by_id (ObjectId.binary ride_id)) (ride db)) as [r|] eqn:Hr.
      * rewrite (get_ride_present _ _ _ _ Hk Hr) in H. now inversion H.
      * rewrite (get_ride_absent _ _ _ Hk Hr) in H. now inversion H.
    + rewrite (get_ride_malformed _ _ Hv) in H. now inversion H.
Qed.

(** ** More on requesting a ride *)

(** The store [request_ride] leaves once the rider is resolved. *)
Lemma request_ride_store rider_oid ride_oid (data : RideRequest R) db rid db1 :
  resolve_rider rider_oid data db = (Return rid, db1) ->
  let sel := select_driver (pickup data) (available_drivers db) in
  snd (request_ride rider_oid ride_oid data db)
  = mkDB (rider db1)
         (match sel with
          | Some d => update_one (by_id (_id d)) (set_is_available false) (driver db)
          | None => driver db
          end)
         (ride db ++
          [mkDoc ride_oid
             (Ride.make rid
                (match sel with Some d => Some (ObjectId.str (_id d)) | None => None end)
                (pickup data) (dropoff data)
                (match sel with Some _ => "assigned" | None => "requested" end)
                None None)]).
Proof.
  intros H. pose proof (request_ride_run _ ride_oid _ _ _ _ H) as Hrun.
  simpl in Hrun. simpl. now rewrite Hrun.
Qed.

(** X6.  A request whose rider resolves adds exactly one ride, at the end of
    the ride collection, and changes no ride that was there.  The new ride
    carries the request's pickup and dropoff, the resolved rider and no
    timestamps; it is either "requested" with no driver, or "assigned" to a
    driver that was stored with [is_available = true]: a busy driver is
    never assigned, and no ride starts in any other status. *)
Theorem request_ride_adds_one_ride
    rider_oid ride_oid (data : RideRequest R) db rid db1 :
  resolve_rider rider_oid data db = (Return rid, db1) ->
  exists new,
    ride (snd (request_ride rider_oid ride_oid data db))
    = ride db ++ [mkDoc ride_oid new] /\
    Ride.rider_id new = rid /\
    Ride.pickup new = pickup data /\
    Ride.dropoff new = dropoff data /\
    Ride.requested_at new = None /\
    Ride.updated_at new = None /\
    ((Ride.status new = "requested" /\ Ride.driver_id new = None) \/
     (Ride.status new = "assigned" /\
      exists d, In d (driver db) /\
                Driver.is_available (fields d) = true /\
                Ride.driver_id new = Some (ObjectId.str (_id d)))).
Proof.
  intros H. rewrite (request_ride_store _ ride_oid _ _ _ _ H). simpl.
  eexists. split; [reflexivity|]. simpl.
  repeat (split; [reflexivity|]).
  destruct (select_driver (pickup data) (available_drivers db)) as [d|] eqn:Hsel.
  - right. split; [reflexivity|]. exists d.
    apply select_driver_In in Hsel. unfold available_drivers, find in Hsel.
    apply filter_In in Hsel. destruct Hsel. auto.
  - left. auto.
Qed.

Lemma sort_all_infinite (p : Location R) (l : list (Doc (Driver.t R))) :
  (forall d, In d l -> Driver.location (fields d) = None) ->
  sort (dist2 p) dist_ltb l = l.
Proof.
  induction l as [|x l IH]; intros Hall; simpl; [reflexivity|].
  rewrite IH by (intros d Hd; apply Hall; now right).
  destruct l as [|y l]; simpl; [reflexivity|].
  unfold dist2 at 1. rewrite (Hall y) by (right; now left). reflexivity.
Qed.

(** X7.  When no available driver has a recorded location, [request_ride]
    assigns the first available driver in the store's order: the sort by
    distance leaves the candidates where they were. *)
Theorem request_ride_without_locations
    rider_oid ride_oid (data : RideRequest R) db rid db1
    (d : Doc (Driver.t R)) (others : list (Doc (Driver.t R))) :
  resolve_rider rider_oid data db = (Return rid, db1) ->
  available_drivers db = d :: others ->
  (forall x, In x (available_drivers db) -> Driver.location (fields x) = None) ->
  ride (snd (request_ride rider_oid ride_oid data db))
  = ride db ++
    [mkDoc ride_oid
       (Ride.make rid (Some (ObjectId.str (_id d))) (pickup data) (dropoff data)
          "assigned" None None)].
Proof.
  intros H Hav Hall. rewrite (request_ride_store _ ride_oid _ _ _ _ H). simpl.
  assert (Hsel : select_driver (pickup data) (available_drivers db) = Some d).
  { unfold select_driver. rewrite (sort_all_infinite _ _ Hall), Hav. reflexivity. }
  now rewrite Hsel.
Qed.

(** X8.  No double booking in sequence: once [request_ride] has assigned a
    driver, no document with that driver's identity is among the available
    drivers of the store it leaves, so no later request can select it (until
    its availability is set again).  Identities are unique in the driver
    collection. *)
Theorem request_ride_no_double_booking
    rider_oid ride_oid (data : RideRequest R) db rid db1 (m : Doc (Driver.t R)) :
  resolve_rider rider_oid data db = (Return rid, db1) ->
  NoDup (map _id (driver db)) ->
  select_driver (pickup data) (available_drivers db) = Some m ->
  let db' := snd (request_ride rider_oid ride_oid data db) in
  (forall x, In x (available_drivers db') -> _id x <> _id m) /\
  (forall p x, select_driver p (available_drivers db') = Some x -> _id x <> _id m).
Proof.
  intros H Hnd Hsel db'.
  assert (Hav : forall x, In x (available_drivers db') -> _id x <> _id m).
  { intros x Hx Heq. subst db'.
    rewrite (request_ride_store _ ride_oid _ _ _ _ H) in Hx. simpl in Hx.
    rewrite Hsel in Hx. unfold available_drivers, find in Hx. simpl in Hx.
    apply filter_In in Hx. destruct Hx as [Hin Hav].
    assert (Hm : In m (driver db)).
    { apply select_driver_In in Hsel. unfold available_drivers, find in Hsel.
      apply filter_In in Hsel. tauto. }
    pose proof (find_one_update_one_same (_id m) (set_is_available false) _ _
                  (find_one_unique _ _ Hnd Hm)) as Hfetch.
    assert (Hnd' : NoDup (map _id (update_one (by_id (_id m)) (set_is_available false)
                                     (driver db))))
      by now rewrite update_one_ids.
    pose proof (find_one_unique _ _ Hnd' Hin) as Hx.
    rewrite Heq, Hfetch in Hx. injection Hx as Hx. subst x. discriminate. }
  split; [exact Hav|].
  intros p x Hx. apply Hav. now apply select_driver_In with p.
Qed.

(** ** Documents are never lost *)

Lemma resolve_rider_riders rider_oid (data : RideRequest R) db :
  rider (snd (resolve_rider rider_oid data db)) = rider db \/
  rider (snd (resolve_rider rider_oid data db))
  = rider db ++ [mkDoc rider_oid (Rider.make (the (rider_name data)) None None None)].
Proof.
  destruct (truthy (rider_id data)) eqn:Hi.
  - left. destruct (resolve_rider_by_identity rider_oid data db Hi) as [Hpure _].
    now rewrite Hpure.
  - destruct (truthy (rider_name data)) eqn:Hn.
    + right. now rewrite resolve_rider_created.
    + left. now rewrite resolve_rider_missing.
Qed.

Lemma request_ride_ids rider_oid ride_oid (data : RideRequest R) db :
  let db' := snd (request_ride rider_oid ride_oid data db) in
  map _id (driver db') = map _id (driver db) /\
  (map _id (rider db') = map _id (rider db) \/
   map _id (rider db') = map _id (rider db) ++ [rider_oid]) /\
  (map _id (ride db') = map _id (ride db) \/
   map _id (ride db') = map _id (ride db) ++ [ride_oid]).
Proof.
  intros db'. subst db'. split; [|split].
  - destruct (resolve_rider rider_oid data db) as [[rid|e] db1] eqn:H.
    + rewrite (request_ride_store _ ride_oid _ _ _ _ H). simpl.
      destruct (select_driver _ _); [apply update_one_ids | reflexivity].
    + rewrite (request_ride_raise _ ride_oid _ _ _ _ H). simpl.
      now rewrite (resolve_rider_raise_pure _ _ _ _ _ H).
  - rewrite request_ride_rider_frame.
    destruct (resolve_rider_riders rider_oid data db) as [Hr|Hr]; rewrite Hr.
    + now left.
    + right. now rewrite map_app.
  - destruct (resolve_rider rider_oid data db) as [[rid|e] db1] eqn:H.
    + right. rewrite (request_ride_store _ ride_oid _ _ _ _ H). simpl.
      now rewrite map_app.
    + left. rewrite (request_ride_raise _ ride_oid _ _ _ _ H). simpl.
      now rewrite (resolve_rider_raise_pure _ _ _ _ _ H).
Qed.

Lemma update_ride_status_ids (ride_id payload_status : string) db :
  let db' := snd (update_ride_status ride_id payload_status db) in
  map _id (rider db') = map _id (rider db) /\
  map _id (driver db') = map _id (driver db) /\
  map _id (ride db') = map _id (ride db).
Proof.
  intros db'. subst db'.
  destruct (ObjectId.is_valid ride_id) eqn:Hv.
  - destruct (mem payload_status allowed) eqn:Ha.
    + pose proof (parse_valid _ Hv) as Hk.
      destruct (find_one (by_id (ObjectId.binary ride_id)) (ride db)) as [r|] eqn:Hr.
      * rewrite (update_ride_status_run _ _ _ _ _ Ha Hk Hr). simpl.
        split; [reflexivity|]. split; [|apply update_one_ids].
        destruct (_ && _); [|reflexivity].
        destruct (ObjectId.parse (the _)); [apply update_one_ids | reflexivity].
      * rewrite (update_ride_status_absent _ _ _ _ Ha Hk Hr). auto.
    + unfold update_ride_status. rewrite Hv, Ha. auto.
  - unfold update_ride_status. rewrite Hv. auto.
Qed.

Lemma update_driver_location_ids
    (driver_id : string) (payload : DriverLocationUpdate R) db :
  let db' := snd (update_driver_location driver_id payload db) in
  map _id (rider db') = map _id (rider db) /\
  map _id (driver db') = map _id (driver db) /\
  map _id (ride db') = map _id (ride db).
Proof.
  intros db'. subst db'.
  destruct (ObjectId.is_valid driver_id) eqn:Hv.
  - pose proof (parse_valid _ Hv) as Hk.
    destruct (find_one (by_id (ObjectId.binary driver_id)) (driver db)) as [d|] eqn:Hd.
    + rewrite (update_driver_location_run _ _ _ _ _ Hk Hd). simpl.
      split; [reflexivity|]. split; [apply update_one_ids | reflexivity].
    + rewrite (update_driver_location_absent _ _ _ _ Hk Hd). auto.
  - rewrite (update_driver_location_malformed _ _ _ Hv). auto.
Qed.

(** X9.  No handler loses or reorders documents.  [update_ride_status] and
    [update_driver_location], whatever they answer, leave the identities of
    all three collections as they were, in the same order.  [request_ride],
    whatever it answers, leaves the driver identities as they were and at
    most appends the new rider's identity to the riders and the new ride's
    identity to the rides. *)
Theorem handlers_keep_documents db :
  (forall ride_id payload_status,
     let db' := snd (update_ride_status ride_id payload_status db) in
     map _id (rider db') = map _id (rider db) /\
     map _id (driver db') = map _id (driver db) /\
     map _id (ride db') = map _id (ride db)) /\
  (forall driver_id (payload : DriverLocationUpdate R),
     let db' := snd (update_driver_location driver_id payload db) in
     map _id (rider db') = map _id (rider db) /\
     map _id (driver db') = map _id (driver db) /\
     map _id (ride db') = map _id (ride db)) /\
  (forall rider_oid ride_oid (data : RideRequest R),
     let db' := snd (request_ride rider_oid ride_oid data db) in
     map _id (driver db') = map _id (driver db) /\
     (map _id (rider db') = map _id (rider db) \/
      map _id (rider db') = map _id (rider db) ++ [rider_oid]) /\
     (map _id (ride db') = map _id (ride db) \/
      map _id (ride db') = map _id (ride db) ++ [ride_oid])).
Proof.
  split; [|split].
  - intros. apply update_ride_status_ids.
  - intros. apply update_driver_location_ids.
  - intros. apply request_ride_ids.
Qed.

Lemma NoDup_snoc (l : list ObjectId) (k : ObjectId) :
  NoDup l -> ~ In k l -> NoDup (l ++ [k]).
Proof.
  intros Hl Hk. apply NoDup_app; [exact Hl | repeat constructor; intros [] |].
  intros x Hx [<-|[]]. contradiction.
Qed.

(** X10.  Unique identities are an invariant of [request_ride]: if the
    identities within each collection are pairwise distinct and the
    identities the store hands out for the new rider and the new ride are
    not yet used in their collections, then after the request, whatever it
    answered, the identities within each collection are still pairwise
    distinct. *)
Theorem request_ride_keeps_identities_unique
    rider_oid ride_oid (data : RideRequest R) db :
  NoDup (map _id (rider db)) ->
  NoDup (map _id (driver db)) ->
  NoDup (map _id (ride db)) ->
  ~ In rider_oid (map _id (rider db)) ->
  ~ In ride_oid (map _id (ride db)) ->
  let db' := snd (request_ride rider_oid ride_oid data db) in
  NoDup (map _id (rider db')) /\
  NoDup (map _id (driver db')) /\
  NoDup (map _id (ride db')).
Proof.
  intros Hr Hd Hq Hfr Hfq db'.
  destruct (request_ride_ids rider_oid ride_oid data db) as (Hd' & Hr' & Hq').
  fold db' in Hd', Hr', Hq'. rewrite Hd'.
  split; [|split; [exact Hd|]].
  - destruct Hr' as [->| ->]; [exact Hr | now apply NoDup_snoc].
  - destruct Hq' as [->| ->]; [exact Hq | now apply NoDup_snoc].
Qed.

(** ** Round trips *)

(** X11.  A ride returned by [request_ride] can be fetched: [get_ride] on
    the identity of the returned ride, in the store the request left,
    returns that very ride. *)
Theorem request_ride_then_get_ride
    rider_oid ride_oid (data : RideRequest R) db rid db1 :
  resolve_rider rider_oid data db = (Return rid, db1) ->
  ObjectId.canonical ride_oid = true ->
  find_one (by_id ride_oid) (ride db) = None ->
  exists json db',
    request_ride rider_oid ride_oid data db = (Return (Some json), db') /\
    get_ride (id json) db' = (Return (Some json), db').
Proof.
  intros H Hc Hfresh.
  pose proof (request_ride_stored _ _ _ _ _ _ H Hc Hfresh) as Hrun. simpl in Hrun.
  eexists. eexists. split; [exact Hrun|]. simpl.
  match goal with
  | |- get_ride _ ?d = _ =>
      apply (get_ride_present (ObjectId.str ride_oid) d ride_oid
               (mkDoc ride_oid _) (parse_canonical _ Hc))
  end.
  simpl. now apply find_one_insert_one_fresh.
Qed.

Lemma set_is_available_back (f : Driver.t R) :
  Driver.is_available f = true ->
  set_is_available true (set_is_available false f) = f.
Proof. destruct f; simpl. now intros ->. Qed.

(** X12.  Requesting a ride and then completing or cancelling it gives the
    fleet back: the driver collection after the two calls is exactly the one
    before them, whether or not a driver was assigned.  Driver identities
    are unique and canonical, and the ride's identity is new. *)
Theorem request_then_finish_restores_drivers
    rider_oid ride_oid (data : RideRequest R) db rid db1 (payload_status : string) :
  resolve_rider rider_oid data db = (Return rid, db1) ->
  ObjectId.canonical ride_oid = true ->
  find_one (by_id ride_oid) (ride db) = None ->
  NoDup (map _id (driver db)) ->
  (forall d, In d (driver db) -> ObjectId.canonical (_id d) = true) ->
  mem payload_status ["completed"; "cancelled"] = true ->
  let db' := snd (request_ride rider_oid ride_oid data db) in
  exists json db'',
    update_ride_status (ObjectId.str ride_oid) payload_status db'
    = (Return (Some json), db'') /\
    Ride.status (body json) = payload_status /\
    driver db'' = driver db.
Proof.
  intros H Hc Hfresh Hnd Hcan Hm db'.
  assert (Ha : mem payload_status allowed = true).
  { unfold mem in *. simpl in *.
    repeat match goal with
           | |- context [payload_status =? ?s] => destruct (payload_status =? s)
           end; simpl in *; congruence. }
  pose proof (request_ride_store _ ride_oid _ _ _ _ H) as Hstore. simpl in Hstore.
  fold db' in Hstore.
  assert (Hfind : find_one (by_id ride_oid) (ride db')
                  = Some (mkDoc ride_oid
                            (Ride.make rid
                               (match select_driver (pickup data) (available_drivers db) with
                                | Some d => Some (ObjectId.str (_id d))
                                | None => None
                                end)
                               (pickup data) (dropoff data)
                               (match select_driver (pickup data) (available_drivers db) with
                                | Some _ => "assigned"
                                | None => "requested"
                                end) None None))).
  { rewrite Hstore. simpl. now apply (find_one_insert_one_fresh ride_oid). }
  pose proof (update_ride_status_run _ _ _ _ _ Ha (parse_canonical _ Hc) Hfind) as Hrun.
  eexists. eexists. split; [exact Hrun|]. simpl. split; [reflexivity|].
  rewrite Hm. simpl. rewrite Hstore. simpl.
  destruct (select_driver (pickup data) (available_drivers db)) as [m|] eqn:Hsel; simpl.
  - assert (Hin : In m (driver db) /\ Driver.is_available (fields m) = true).
    { apply select_driver_In in Hsel. unfold available_drivers, find in Hsel.
      now apply filter_In in Hsel. }
    destruct Hin as [Hin Hav].
    pose proof (Hcan m Hin) as Hcm.
    assert (Ht : truthy (Some (ObjectId.str (_id m))) = true).
    { apply is_valid_nonempty. unfold ObjectId.canonical in Hcm.
      apply andb_true_iff in Hcm. tauto. }
    rewrite Ht. rewrite (parse_canonical _ Hcm).
    rewrite update_one_twice. apply update_one_id.
    intros d Hd. rewrite (find_one_unique _ _ Hnd Hin) in Hd. injection Hd as <-.
    now apply set_is_available_back.
  - reflexivity.
Qed.

(** ** Retrying an update *)

Lemma set_location_twice (payload : DriverLocationUpdate R) (f : Driver.t R) :
  set_location payload (set_location payload f) = set_location payload f.
Proof.
  unfold set_location. simpl. now destruct (payload_is_available payload).
Qed.

(** X13.  [update_driver_location] is idempotent: sent twice in a row, the
    second call gives the same answer as the first (the same driver, or the
    same error) and leaves the store as the first call left it. *)
Theorem update_driver_location_idempotent
    (driver_id : string) (payload : DriverLocationUpdate R) db :
  update_driver_location driver_id payload
    (snd (update_driver_location driver_id payload db))
  = update_driver_location driver_id payload db.
Proof.
  destruct (ObjectId.is_valid driver_id) eqn:Hv.
  - pose proof (parse_valid _ Hv) as Hk.
    destruct (find_one (by_id (ObjectId.binary driver_id)) (driver db)) as [d|] eqn:Hd.
    + rewrite (update_driver_location_run _ _ _ _ _ Hk Hd). simpl.
      pose proof (find_one_update_one_same _ (set_location payload) _ _ Hd) as Hd'.
      match goal with
      | |- update_driver_location _ _ ?db1 = _ =>
          rewrite (update_driver_location_run driver_id payload db1 _ _ Hk Hd')
      end.
      simpl. rewrite set_location_twice, update_one_twice.
      rewrite (update_one_ext _ (fun m => set_location payload (set_location payload m))
                 (set_location payload)) by apply set_location_twice.
      reflexivity.
    + rewrite (update_driver_location_absent _ _ _ _ Hk Hd). simpl.
      now apply update_driver_location_absent with (ObjectId.binary driver_id).
  - rewrite (update_driver_location_malformed driver_id payload db Hv). simpl.
    now apply update_driver_location_malformed.
Qed.

(** X14.  [update_ride_status] is idempotent: sent twice in a row with the
    same status, the second call gives the same answer as the first (the
    same ride, or the same error) and leaves the store as the first call
    left it; a driver is not released twice over. *)
Theorem update_ride_status_idempotent (ride_id payload_status : string) db :
  update_ride_status ride_id payload_status
    (snd (update_ride_status ride_id payload_status db))
  = update_ride_status ride_id payload_status db.
Proof.
  destruct (ObjectId.is_valid ride_id) eqn:Hv.
  - destruct (mem payload_status allowed) eqn:Ha.
    + pose proof (parse_valid _ Hv) as Hk.
      destruct (find_one (by_id (ObjectId.binary ride_id)) (ride db)) as [r|] eqn:Hr.
      * rewrite (update_ride_status_run _ _ _ _ _ Ha Hk Hr). simpl.
        pose proof (find_one_update_one_same _ (set_status payload_status) _ _ Hr) as Hr'.
        match goal with
        | |- update_ride_status _ _ ?db1 = _ =>
            rewrite (update_ride_status_run ride_id payload_status db1 _ _ Ha Hk Hr')
        end.
        simpl. f_equal. f_equal.
        -- destruct (_ && _); [|reflexivity].
           destruct (ObjectId.parse (the _)); [|reflexivity].
           rewrite update_one_twice. now apply update_one_ext.
        -- rewrite update_one_twice. now apply update_one_ext.
      * rewrite (update_ride_status_absent _ _ _ _ Ha Hk Hr). simpl.
        now apply update_ride_status_absent with (ObjectId.binary ride_id).
    + unfold update_ride_status. now rewrite Hv, Ha.
  - unfold update_ride_status. now rewrite Hv.
Qed.

(** ** Listing *)

(** X15.  [list_rides] answers with the first matching rides in the store's
    order: its answer is a prefix of the list of all stored rides that match
    the filter, each serialized. *)
Theorem list_rides_is_a_prefix
    (rider_id_ driver_id_ : option string) (limit_ : Z) db :
  exists l rest,
    list_rides rider_id_ driver_id_ limit_ db = (Return l, db) /\
    map (fun r => serialize (Some r))
      (find (matches (list_rides_filter rider_id_ driver_id_)) (ride db))
    = l ++ rest.
Proof.
  destruct (limit_prefix limit_
              (find (matches (list_rides_filter rider_id_ driver_id_)) (ride db)))
    as [rest Hrest].
  eexists. exists (map (fun r => serialize (Some r)) rest).
  split; [apply list_rides_run|].
  rewrite <- map_app. now rewrite <- Hrest.
Qed.

(** X16.  [list_available_drivers] never raises and never changes the store,
    and every driver it lists is a stored driver with [is_available = true],
    serialized: a busy driver is never listed. *)
Theorem list_available_drivers_only_available (limit_ : Z) db :
  exists l,
    list_available_drivers limit_ db = (Return l, db) /\
    forall x, In x l ->
      exists d, In d (driver db) /\
                Driver.is_available (fields d) = true /\
                x = serialize (Some d).
Proof.
  eexists. split; [reflexivity|]. simpl.
  intros x Hx. apply in_map_iff in Hx. destruct Hx as (d & <- & Hd).
  exists d. assert (Hin : In d (find (fun d => Driver.is_available (fields d)) (driver db))).
  { rewrite <- (firstn_skipn (Z.to_nat limit_)). apply in_or_app. now left. }
  unfold find in Hin. apply filter_In in Hin. destruct Hin. auto.
Qed.

Lemma resolve_rider_returns_identity rider_oid (data : RideRequest R) db rid db1 :
  truthy (rider_id data) = true ->
  resolve_rider rider_oid data db = (Return rid, db1) ->
  rid = the (rider_id data) /\ ObjectId.is_valid (the (rider_id data)) = true.
Proof.
  intros Ht. unfold resolve_rider. rewrite Ht. simpl.
  destruct (ObjectId.is_valid (the (rider_id data))); simpl; [|discriminate].
  run. destruct (ObjectId.parse (the (rider_id data))); simpl; [|discriminate].
  destruct (count_documents _ _ =? 0)%Z; [discriminate|].
  intros H. inversion H. auto.
Qed.

(** X17.  A ride requested under a rider identity is found under it: after
    [request_ride] with a supplied rider identity, [list_rides] filtered by
    that same identity, with no limit, includes the ride just returned. *)
Theorem request_ride_then_list_rides
    rider_oid ride_oid (data : RideRequest R) db rid db1 :
  truthy (rider_id data) = true ->
  resolve_rider rider_oid data db = (Return rid, db1) ->
  ObjectId.canonical ride_oid = true ->
  find_one (by_id ride_oid) (ride db) = None ->
  exists json db' l,
    request_ride rider_oid ride_oid data db = (Return (Some json), db') /\
    list_rides (rider_id data) None 0 db' = (Return l, db') /\
    In (Some json) l.
Proof.
  intros Ht H Hc Hfresh.
  destruct (resolve_rider_returns_identity _ _ _ _ _ Ht H) as [Hrid Hv].
  pose proof (request_ride_stored _ _ _ _ _ _ H Hc Hfresh) as Hrun. simpl in Hrun.
  eexists. eexists. eexists. split; [exact Hrun|].
  split; [apply list_rides_run|].
  rewrite limit_zero'. simpl.
  apply in_map_iff. eexists (mkDoc ride_oid _). split; [reflexivity|].
  unfold find. apply filter_In. split.
  - unfold insert_one. apply in_or_app. right. now left.
  - unfold matches, list_rides_filter. simpl. rewrite Ht, Hv. simpl.
    rewrite Hrid. now rewrite String.eqb_refl.
Qed.

(** ** Creating riders and drivers *)

Lemma create_rider_run (oid : ObjectId) (r : Rider.t) db :
  ObjectId.canonical oid = true ->
  find_one (by_id oid) (rider db) = None ->
  create_rider oid r db
  = (Return (Some (mkJson (ObjectId.str oid) r)),
     mkDB (rider db ++ [mkDoc oid r]) (driver db) (ride db)).
Proof.
  intros Hc Hfresh. unfold create_rider. run.
  rewrite (parse_canonical _ Hc). simpl.
  fold (insert_one oid r (rider db)).
  now rewrite (find_one_insert_one_fresh _ _ _ Hfresh).
Qed.

Lemma create_driver_run (oid : ObjectId) (d : Driver.t R) db :
  ObjectId.canonical oid = true ->
  find_one (by_id oid) (driver db) = None ->
  create_driver oid d db
  = (Return (Some (mkJson (ObjectId.str oid) d)),
     mkDB (rider db) (driver db ++ [mkDoc oid d]) (ride db)).
Proof.
  intros Hc Hfresh. unfold create_driver. run.
  rewrite (parse_canonical _ Hc). simpl.
  fold (insert_one oid d (driver db)).
  now rewrite (find_one_insert_one_fresh _ _ _ Hfresh).
Qed.

(** X18.  [create_rider] and [create_driver], given a canonical identity new
    to the collection, answer with the submitted record under that identity,
    unchanged, and leave it as the last document of its collection; every
    document that was there before, and the other collections, are as they
    were. *)
Theorem create_returns_what_it_stored (oid : ObjectId) db :
  ObjectId.canonical oid = true ->
  (forall r : Rider.t,
     find_one (by_id oid) (rider db) = None ->
     create_rider oid r db
     = (Return (Some (mkJson (ObjectId.str oid) r)),
        mkDB (rider db ++ [mkDoc oid r]) (driver db) (ride db))) /\
  (forall d : Driver.t R,
     find_one (by_id oid) (driver db) = None ->
     create_driver oid d db
     = (Return (Some (mkJson (ObjectId.str oid) d)),
        mkDB (rider db) (driver db ++ [mkDoc oid d]) (ride db))).
Proof.
  intros Hc. split; intros x Hfresh.
  - now apply create_rider_run.
  - now apply create_driver_run.
Qed.

(** X19.  The identity [create_rider] returns is accepted by [request_ride]:
    a request that supplies it resolves to that rider, raises neither
    "Invalid rider id" nor "Rider not found", and creates no further rider,
    whatever name it also carries. *)
Theorem create_rider_then_request_ride
    (oid : ObjectId) (r : Rider.t) db rider_oid ride_oid
    (name : option string) (pickup_ dropoff_ : Location R) :
  ObjectId.canonical oid = true ->
  find_one (by_id oid) (rider db) = None ->
  let db1 := snd (create_rider oid r db) in
  let data := mkRideRequest (Some (ObjectId.str oid)) name pickup_ dropoff_ in
  resolve_rider rider_oid data db1 = (Return (ObjectId.str oid), db1) /\
  rider (snd (request_ride rider_oid ride_oid data db1)) = rider db1.
Proof.
  intros Hc Hfresh db1 data.
  assert (Hv : ObjectId.is_valid oid = true).
  { unfold ObjectId.canonical in Hc. apply andb_true_iff in Hc. tauto. }
  assert (Ht : truthy (rider_id data) = true) by now apply is_valid_nonempty.
  assert (Hres : resolve_rider rider_oid data db1 = (Return (ObjectId.str oid), db1)).
  { apply (resolve_rider_present rider_oid data db1 oid (mkDoc oid r) Ht).
    - exact (parse_canonical _ Hc).
    - subst db1. rewrite (create_rider_run _ _ _ Hc Hfresh). simpl.
      now apply (find_one_insert_one_fresh oid). }
  split; [exact Hres|].
  rewrite request_ride_rider_frame. now rewrite Hres.
Qed.

(** X20.  A driver created available is at once eligible: when no other
    driver is available, the next request whose rider resolves is assigned
    the driver [create_driver] has just stored. *)
Theorem create_driver_then_request_ride
    (oid : ObjectId) (d : Driver.t R) db rider_oid ride_oid
    (data : RideRequest R) rid db2 :
  available_drivers db = [] ->
  Driver.is_available d = true ->
  let db1 := snd (create_driver oid d db) in
  resolve_rider rider_oid data db1 = (Return rid, db2) ->
  ride (snd (request_ride rider_oid ride_oid data db1))
  = ride db1 ++
    [mkDoc ride_oid
       (Ride.make rid (Some (ObjectId.str oid)) (pickup data) (dropoff data)
          "assigned" None None)].
Proof.
  intros Hnone Hav db1 Hres.
  assert (Hstore : driver db1 = driver db ++ [mkDoc oid d]).
  { subst db1. unfold create_driver. run.
    destruct (ObjectId.parse (ObjectId.str oid)); reflexivity. }
  assert (Havail : available_drivers db1 = [mkDoc oid d]).
  { unfold available_drivers, find in *. rewrite Hstore, filter_app, Hnone.
    simpl. now rewrite Hav. }
  rewrite (request_ride_store _ ride_oid _ _ _ _ Hres). simpl.
  now rewrite Havail.
Qed.

(** ** Routes *)

(** X21.  No route of main.py is shadowed by an earlier one.  For every
    non-empty identity the three parametrised paths reach their handlers
    with that identity, also when the identity is the word "request" or
    "available"; the literal paths [/drivers/available] and [/rides/request]
    reach theirs; and a known path under a method it is not registered for
    is refused as not allowed rather than not found. *)
Theorem routes_reach_their_handlers (x : string) :
  x <> "" ->
  resolve GET ["rides"; x] = Matched (ep_get_ride x) /\
  resolve PATCH ["rides"; x; "status"] = Matched (ep_update_ride_status x) /\
  resolve PATCH ["drivers"; x; "location"] = Matched (ep_update_driver_location x) /\
  resolve GET ["drivers"; "available"] = Matched ep_list_available_drivers /\
  resolve POST ["rides"; "request"] = Matched ep_request_ride /\
  resolve GET ["rides"; x; "status"] = MethodNotAllowed /\
  resolve GET ["drivers"; x; "location"] = MethodNotAllowed.
Proof.
  intros Hx. apply String.eqb_neq in Hx.
  unfold resolve, routes. simpl. rewrite Hx. simpl.
  repeat split; try reflexivity;
    destruct (x =? "available"); destruct (x =? "request"); reflexivity.
Qed.

(** ** Invariants of the ride collection *)

(** X22.  The six statuses are an invariant: if every stored ride has one of
    the allowed statuses, then so has every ride in the store left by
    [request_ride], [update_ride_status] or [update_driver_location],
    whatever the call was given and whatever it answered. *)
Theorem ride_statuses_stay_allowed db :
  (forall r, In r (ride db) -> mem (Ride.status (fields r)) allowed = true) ->
  (forall rider_oid ride_oid (data : RideRequest R) r,
     In r (ride (snd (request_ride rider_oid ride_oid data db))) ->
     mem (Ride.status (fields r)) allowed = true) /\
  (forall ride_id payload_status r,
     In r (ride (snd (update_ride_status ride_id payload_status db))) ->
     mem (Ride.status (fields r)) allowed = true) /\
  (forall driver_id (payload : DriverLocationUpdate R) r,
     In r (ride (snd (update_driver_location driver_id payload db))) ->
     mem (Ride.status (fields r)) allowed = true).
Proof.
  intros Hinv. split; [|split].
  - intros rider_oid ride_oid data r.
    destruct (resolve_rider rider_oid data db) as [[rid|e] db1] eqn:H.
    + rewrite (request_ride_store _ ride_oid _ _ _ _ H). simpl.
      intros Hr. apply in_app_or in Hr. destruct Hr as [Hr|[<-|[]]]; [auto|].
      simpl. now destruct (select_driver _ _).
    + rewrite (request_ride_raise _ ride_oid _ _ _ _ H). simpl.
      rewrite (resolve_rider_raise_pure _ _ _ _ _ H). auto.
  - intros ride_id payload_status r.
    destruct (ObjectId.is_valid ride_id) eqn:Hv.
    + destruct (mem payload_status allowed) eqn:Ha.
      * pose proof (parse_valid _ Hv) as Hk.
        destruct (find_one (by_id (ObjectId.binary ride_id)) (ride db)) as [r0|] eqn:Hr.
        -- rewrite (update_ride_status_run _ _ _ _ _ Ha Hk Hr). simpl.
           intros Hin. apply In_update_one in Hin.
           destruct Hin as [Hin|(d & _ & ->)]; [auto | exact Ha].
        -- rewrite (update_ride_status_absent _ _ _ _ Ha Hk Hr). auto.
      * unfold update_ride_status. rewrite Hv, Ha. auto.
    + unfold update_ride_status. rewrite Hv. auto.
  - intros driver_id payload r.
    destruct (ObjectId.is_valid driver_id) eqn:Hv.
    + pose proof (parse_valid _ Hv) as Hk.
      destruct (find_one (by_id (ObjectId.binary driver_id)) (driver db)) as [d|] eqn:Hd.
      * rewrite (update_driver_location_run _ _ _ _ _ Hk Hd). auto.
      * rewrite (update_driver_location_absent _ _ _ _ Hk Hd). auto.
    + rewrite (update_driver_location_malformed _ _ _ Hv). auto.
Qed.

Lemma resolve_rider_found rider_oid (data : RideRequest R) db rid db1 :
  truthy (rider_id data) = true ->
  resolve_rider rider_oid data db = (Return rid, db1) ->
  db1 = db /\
  exists k r, ObjectId.parse rid = Some k /\ find_one (by_id k) (rider db) = Some r.
Proof.
  intros Ht. unfold resolve_rider. rewrite Ht. simpl.
  destruct (ObjectId.is_valid (the (rider_id data))); simpl; [|discriminate].
  run. destruct (ObjectId.parse (the (rider_id data))) as [k|] eqn:Hk; simpl;
    [|discriminate].
  rewrite count_documents_zero.
  destruct (find_one (by_id k) (rider db)) as [r|] eqn:Hr; [|discriminate].
  intros H. inversion H; subst. split; [reflexivity|]. now exists k, r.
Qed.

(** X23.  The ride [request_ride] stores points at documents that exist: in
    the store the request leaves, its [rider_id] is a well-formed identity
    that names a stored rider (the one looked up, or the one just created),
    and its [driver_id], when it has one, is the identity of a stored
    driver.  The identity given to a new rider is canonical. *)
Theorem request_ride_references_exist
    rider_oid ride_oid (data : RideRequest R) db rid db1 :
  resolve_rider rider_oid data db = (Return rid, db1) ->
  ObjectId.canonical rider_oid = true ->
  let db' := snd (request_ride rider_oid ride_oid data db) in
  exists new,
    ride db' = ride db ++ [mkDoc ride_oid new] /\
    (exists k r, ObjectId.parse (Ride.rider_id new) = Some k /\
                 find_one (by_id k) (rider db') = Some r) /\
    (Ride.driver_id new = None \/
     exists d d', In d (driver db) /\
                  Ride.driver_id new = Some (ObjectId.str (_id d)) /\
                  find_one (by_id (_id d)) (driver db') = Some d').
Proof.
  intros H Hc db'. subst db'.
  rewrite (request_ride_store _ ride_oid _ _ _ _ H). simpl.
  eexists. split; [reflexivity|]. simpl. split.
  - destruct (truthy (rider_id data)) eqn:Ht.
    + destruct (resolve_rider_found _ _ _ _ _ Ht H) as (-> & k & r & Hk & Hr).
      now exists k, r.
    + destruct (truthy (rider_name data)) eqn:Hn.
      * rewrite (resolve_rider_created _ _ _ Ht Hn) in H. inversion H; subst. simpl.
        destruct (find_one_insert_one_some rider_oid
                    (Rider.make (the (rider_name data)) None None None) (rider db))
          as [r Hr].
        exists rider_oid, r. split; [now apply parse_canonical | exact Hr].
      * rewrite (resolve_rider_missing _ _ _ Ht Hn) in H. discriminate.
  - destruct (select_driver (pickup data) (available_drivers db)) as [m|] eqn:Hsel;
      [right | now left].
    assert (Hin : In m (driver db)).
    { apply select_driver_In in Hsel. unfold available_drivers, find in Hsel.
      apply filter_In in Hsel. tauto. }
    assert (Hex : exists d0, find_one (by_id (_id m)) (driver db) = Some d0).
    { destruct (find_one (by_id (_id m)) (driver db)) as [d0|] eqn:E; [eauto|].
      apply find_one_absent_ids in E. exfalso. apply E. now apply in_map. }
    destruct Hex as [d0 Hd0].
    exists m. eexists. split; [exact Hin|]. split; [reflexivity|].
    now apply find_one_update_one_same with (d := d0).
Qed.
(** ** Every lookup by identity *)

End MoreProperties.

(** * The further properties on the example fleet *)

Lemma update_driver_location_failures_witness :
  ObjectId.is_valid "xyz" = false /\
  update_driver_location "xyz" (mkDriverLocationUpdate (at_ 2 3) None) fleet
  = (Raise (HTTPException 400 "Invalid driver id"), fleet) /\
  ObjectId.parse oid_new1 = Some oid_new1 /\
  find_one (by_id oid_new1) (driver fleet) = None /\
  update_driver_location oid_new1 (mkDriverLocationUpdate (at_ 2 3) None) fleet
  = (Raise (HTTPException 404 "Driver not found"), fleet).
Proof.
  destruct (update_driver_location_failures
              "xyz" (mkDriverLocationUpdate (at_ 2 3) None) fleet) as [Hbad _].
  destruct (update_driver_location_failures
              oid_new1 (mkDriverLocationUpdate (at_ 2 3) None) fleet) as [_ Hnone].
  split; [reflexivity|]. split; [exact (proj1 (Hbad eq_refl))|].
  split; [reflexivity|]. split; [reflexivity|].
  exact (proj1 (Hnone oid_new1 eq_refl eq_refl)).
Defined.

Lemma update_ride_status_not_found_witness :
  mem "completed" allowed = true /\
  ObjectId.parse oid_new2 = Some oid_new2 /\
  find_one (by_id oid_new2) (ride fleet) = None /\
  update_ride_status oid_new2 "completed" fleet
  = (Raise (HTTPException 404 "Ride not found"), fleet).
Proof.
  repeat (split; [reflexivity|]).
  exact (proj1 (update_ride_status_not_found
                  oid_new2 "completed" fleet oid_new2 eq_refl eq_refl eq_refl)).
Defined.

Lemma update_ride_status_frame_witness :
  mem "accepted" allowed = true /\
  ObjectId.parse oid_f = Some oid_f /\
  find_one (by_id oid_f) (ride fleet) = Some trip /\
  exists json db',
    update_ride_status oid_f "accepted" fleet = (Return (Some json), db') /\
    Ride.status (body json) = "accepted" /\
    Ride.driver_id (body json) = Some oid_e /\
    get_ride oid_f db' = (Return (Some json), db').
Proof.
  repeat (split; [reflexivity|]).
  destruct (update_ride_status_frame oid_f "accepted" fleet oid_f trip
              eq_refl eq_refl eq_refl)
    as (json & db' & Hrun & _ & Hst & _ & Hdrv & _ & _ & _ & _ & Hget & _).
  exists json, db'. exact (conj Hrun (conj Hst (conj Hdrv Hget))).
Defined.

Lemma update_ride_status_release_is_best_effort_witness :
  mem "cancelled" allowed = true /\
  ObjectId.parse oid_f = Some oid_f /\
  find_one (by_id oid_f) (ride stray) = Some trip /\
  ObjectId.parse (the (Ride.driver_id (fields trip))) = Some oid_e /\
  find_one (by_id oid_e) (driver stray) = None /\
  exists json db',
    update_ride_status oid_f "cancelled" stray = (Return (Some json), db') /\
    Ride.status (body json) = "cancelled" /\
    driver db' = driver stray.
Proof.
  repeat (split; [reflexivity|]).
  exact (update_ride_status_release_is_best_effort
           oid_f "cancelled" stray oid_f trip eq_refl eq_refl eq_refl
           (or_intror (or_intror (ex_intro _ oid_e (conj eq_refl eq_refl))))).
Defined.

Lemma http_exception_leaves_store_witness :
  get_ride oid_f fleet = (Return (serialize (Some trip)), fleet) /\
  update_ride_status oid_f "flying" fleet
  = (Raise (HTTPException 400 "Invalid status"), fleet).
Proof.
  split; [reflexivity|].
  destruct (update_ride_status oid_f "flying" fleet) as [out db'] eqn:E.
  assert (Hout : out = Raise (HTTPException 400 "Invalid status"))
    by (vm_compute in E; congruence).
  subst out.
  destruct (http_exception_leaves_store fleet db' 400 "Invalid status")
    as (_ & Hstatus & _).
  now rewrite (Hstatus _ _ E).
Defined.

Lemma request_ride_adds_one_ride_witness :
  resolve_rider oid_new1 (from_origin (Some oid_a) None) fleet = (Return oid_a, fleet) /\
  exists new,
    ride (snd (request_ride oid_new1 oid_new2 (from_origin (Some oid_a) None) fleet))
    = [trip; mkDoc oid_new2 new] /\
    Ride.rider_id new = oid_a.
Proof.
  split; [reflexivity|].
  destruct (request_ride_adds_one_ride
              oid_new1 oid_new2 (from_origin (Some oid_a) None) fleet oid_a fleet eq_refl)
    as (new & Hrides & Hrider & _).
  exists new. exact (conj Hrides Hrider).
Defined.

Lemma request_ride_without_locations_witness :
  resolve_rider oid_new1 (from_origin (Some oid_a) None) parked = (Return oid_a, parked) /\
  available_drivers parked = [fay; hal] /\
  (forall x, In x (available_drivers parked) -> Driver.location (fields x) = None) /\
  ride (snd (request_ride oid_new1 oid_new2 (from_origin (Some oid_a) None) parked))
  = [mkDoc oid_new2
       (Ride.make oid_a (Some oid_d) (at_ 0 0) (at_ 5 5) "assigned" None None)].
Proof.
  assert (Hall : forall x, In x (available_drivers parked) ->
                           Driver.location (fields x) = None).
  { intros x [<-|[<-|[]]]; reflexivity. }
  split; [reflexivity|]. split; [reflexivity|]. split; [exact Hall|].
  exact (request_ride_without_locations
           oid_new1 oid_new2 (from_origin (Some oid_a) None) parked oid_a parked
           fay [hal] eq_refl eq_refl Hall).
Defined.

Lemma request_ride_no_double_booking_witness :
  resolve_rider oid_new1 (from_origin (Some oid_a) None) fleet = (Return oid_a, fleet) /\
  NoDup (map _id (driver fleet)) /\
  select_driver (at_ 0 0) (available_drivers fleet) = Some eve /\
  forall x,
    In x (available_drivers
            (snd (request_ride oid_new1 oid_new2 (from_origin (Some oid_a) None) fleet))) ->
    _id x <> oid_c.
Proof.
  split; [reflexivity|]. split; [exact fleet_ids_unique|]. split; [reflexivity|].
  exact (proj1 (request_ride_no_double_booking
                  oid_new1 oid_new2 (from_origin (Some oid_a) None) fleet oid_a fleet eve
                  eq_refl fleet_ids_unique eq_refl)).
Defined.

Lemma fleet_rider_ids_unique : NoDup (map _id (rider fleet)).
Proof. repeat constructor; simpl; intuition discriminate. Qed.

Lemma fleet_ride_ids_unique : NoDup (map _id (ride fleet)).
Proof. repeat constructor; simpl; intuition discriminate. Qed.

Lemma request_ride_keeps_identities_unique_witness :
  NoDup (map _id (rider fleet)) /\
  NoDup (map _id (driver fleet)) /\
  NoDup (map _id (ride fleet)) /\
  ~ In oid_new1 (map _id (rider fleet)) /\
  ~ In oid_new2 (map _id (ride fleet)) /\
  NoDup (map _id (ride (snd (request_ride oid_new1 oid_new2
                               (from_origin None (Some "Bob")) fleet)))).
Proof.
  assert (H1 : ~ In oid_new1 (map _id (rider fleet)))
    by (simpl; intuition discriminate).
  assert (H2 : ~ In oid_new2 (map _id (ride fleet)))
    by (simpl; intuition discriminate).
  split; [exact fleet_rider_ids_unique|]. split; [exact fleet_ids_unique|].
  split; [exact fleet_ride_ids_unique|]. split; [exact H1|]. split; [exact H2|].
  exact (proj2 (proj2 (request_ride_keeps_identities_unique
                         oid_new1 oid_new2 (from_origin None (Some "Bob")) fleet
                         fleet_rider_ids_unique fleet_ids_unique fleet_ride_ids_unique
                         H1 H2))).
Defined.

Lemma request_ride_then_get_ride_witness :
  resolve_rider oid_new1 (from_origin (Some oid_a) None) fleet = (Return oid_a, fleet) /\
  ObjectId.canonical oid_new2 = true /\
  find_one (by_id oid_new2) (ride fleet) = None /\
  exists json db',
    request_ride oid_new1 oid_new2 (from_origin (Some oid_a) None) fleet
    = (Return (Some json), db') /\
    get_ride (id json) db' = (Return (Some json), db').
Proof.
  repeat (split; [reflexivity|]).
  exact (request_ride_then_get_ride
           oid_new1 oid_new2 (from_origin (Some oid_a) None) fleet oid_a fleet
           eq_refl eq_refl eq_refl).
Defined.

Lemma fleet_ids_canonical :
  forall d, In d (driver fleet) -> ObjectId.canonical (_id d) = true.
Proof. intros d [<-|[<-|[<-|[<-|[]]]]]; reflexivity. Qed.

Lemma request_then_finish_restores_drivers_witness :
  resolve_rider oid_new1 (from_origin (Some oid_a) None) fleet = (Return oid_a, fleet) /\
  ObjectId.canonical oid_new2 = true /\
  find_one (by_id oid_new2) (ride fleet) = None /\
  NoDup (map _id (driver fleet)) /\
  (forall d, In d (driver fleet) -> ObjectId.canonical (_id d) = true) /\
  mem "completed" ["completed"; "cancelled"] = true /\
  exists json db'',
    update_ride_status oid_new2 "completed"
      (snd (request_ride oid_new1 oid_new2 (from_origin (Some oid_a) None) fleet))
    = (Return (Some json), db'') /\
    Ride.status (body json) = "completed" /\
    driver db'' = driver fleet.
Proof.
  split; [reflexivity|]. split; [reflexivity|]. split; [reflexivity|].
  split; [exact fleet_ids_unique|]. split; [exact fleet_ids_canonical|].
  split; [reflexivity|].
  exact (request_then_finish_restores_drivers
           oid_new1 oid_new2 (from_origin (Some oid_a) None) fleet oid_a fleet "completed"
           eq_refl eq_refl eq_refl fleet_ids_unique fleet_ids_canonical eq_refl).
Defined.

Lemma request_ride_then_list_rides_witness :
  truthy (rider_id (from_origin (Some oid_a) None)) = true /\
  resolve_rider oid_new1 (from_origin (Some oid_a) None) fleet = (Return oid_a, fleet) /\
  ObjectId.canonical oid_new2 = true /\
  find_one (by_id oid_new2) (ride fleet) = None /\
  exists json db' l,
    request_ride oid_new1 oid_new2 (from_origin (Some oid_a) None) fleet
    = (Return (Some json), db') /\
    list_rides (Some oid_a) None 0 db' = (Return l, db') /\
    In (Some json) l.
Proof.
  repeat (split; [reflexivity|]).
  exact (request_ride_then_list_rides
           oid_new1 oid_new2 (from_origin (Some oid_a) None) fleet oid_a fleet
           eq_refl eq_refl eq_refl eq_refl).
Defined.

Lemma create_returns_what_it_stored_witness :
  ObjectId.canonical oid_new1 = true /\
  find_one (by_id oid_new1) (rider fleet) = None /\
  create_rider oid_new1 (Rider.make "Bob" (Some "555") None None) fleet
  = (Return (Some (mkJson oid_new1 (Rider.make "Bob" (Some "555") None None))),
     mkDB [alice; mkDoc oid_new1 (Rider.make "Bob" (Some "555") None None)]
          (driver fleet) (ride fleet)).
Proof.
  split; [reflexivity|]. split; [reflexivity|].
  exact (proj1 (create_returns_what_it_stored oid_new1 fleet eq_refl)
           (Rider.make "Bob" (Some "555") None None) eq_refl).
Defined.

Lemma create_rider_then_request_ride_witness :
  ObjectId.canonical oid_new1 = true /\
  find_one (by_id oid_new1) (rider fleet) = None /\
  rider (snd (request_ride oid_d oid_new2 (from_origin (Some oid_new1) (Some "Zed"))
                (snd (create_rider oid_new1 (Rider.make "Bob" None None None) fleet))))
  = [alice; mkDoc oid_new1 (Rider.make "Bob" None None None)].
Proof.
  split; [reflexivity|]. split; [reflexivity|].
  exact (proj2 (create_rider_then_request_ride
                  oid_new1 (Rider.make "Bob" None None None) fleet oid_d oid_new2
                  (Some "Zed") (at_ 0 0) (at_ 5 5) eq_refl eq_refl)).
Defined.

Lemma create_driver_then_request_ride_witness :
  available_drivers nobody = [] /\
  resolve_rider oid_d (from_origin (Some oid_a) None)
    (snd (create_driver oid_new1 (fields dan) nobody))
  = (Return oid_a, snd (create_driver oid_new1 (fields dan) nobody)) /\
  ride (snd (request_ride oid_d oid_new2 (from_origin (Some oid_a) None)
               (snd (create_driver oid_new1 (fields dan) nobody))))
  = [mkDoc oid_new2
       (Ride.make oid_a (Some oid_new1) (at_ 0 0) (at_ 5 5) "assigned" None None)].
Proof.
  split; [reflexivity|]. split; [reflexivity|].
  exact (create_driver_then_request_ride
           oid_new1 (fields dan) nobody oid_d oid_new2 (from_origin (Some oid_a) None)
           oid_a (snd (create_driver oid_new1 (fields dan) nobody))
           eq_refl eq_refl eq_refl).
Defined.

Lemma routes_reach_their_handlers_witness :
  "request" <> "" /\
  resolve GET ["rides"; "request"] = Matched (ep_get_ride "request") /\
  resolve GET ["drivers"; "request"; "location"] = MethodNotAllowed.
Proof.
  assert (H : "request" <> "") by discriminate.
  split; [exact H|].
  destruct (routes_reach_their_handlers "request" H)
    as (Hget & _ & _ & _ & _ & _ & Hmethod).
  exact (conj Hget Hmethod).
Defined.

Lemma fleet_statuses_allowed :
  forall r, In r (ride fleet) -> mem (Ride.status (fields r)) allowed = true.
Proof. intros r [<-|[]]. reflexivity. Qed.

Lemma ride_statuses_stay_allowed_witness :
  (forall r, In r (ride fleet) -> mem (Ride.status (fields r)) allowed = true) /\
  forall r,
    In r (ride (snd (update_ride_status oid_f "in_progress" fleet))) ->
    mem (Ride.status (fields r)) allowed = true.
Proof.
  split; [exact fleet_statuses_allowed|].
  destruct (ride_statuses_stay_allowed fleet fleet_statuses_allowed) as (_ & Hstatus & _).
  exact (Hstatus oid_f "in_progress").
Defined.

Lemma request_ride_references_exist_witness :
  resolve_rider oid_new1 (from_origin None (Some "Bob")) fleet
  = (Return oid_new1,
     mkDB [alice; mkDoc oid_new1 (Rider.make "Bob" None None None)]
          (driver fleet) (ride fleet)) /\
  ObjectId.canonical oid_new1 = true /\
  exists new,
    ride (snd (request_ride oid_new1 oid_new2 (from_origin None (Some "Bob")) fleet))
    = [trip; mkDoc oid_new2 new] /\
    exists k r,
      ObjectId.parse (Ride.rider_id new) = Some k /\
      find_one (by_id k)
        (rider (snd (request_ride oid_new1 oid_new2 (from_origin None (Some "Bob")) fleet)))
      = Some r.
Proof.
  split; [reflexivity|]. split; [reflexivity|].
  destruct (request_ride_references_exist
              oid_new1 oid_new2 (from_origin None (Some "Bob")) fleet oid_new1 _
              eq_refl eq_refl)
    as (new & Hrides & Hrider & _).
  exists new. exact (conj Hrides Hrider).
Defined.


(** ** Identities with blanks

    A string of 24 characters in which blanks stand between the bytes is a
    valid identity: it denotes fewer than 12 bytes and names no stored
    document, so lookups with it answer "not found", not "invalid", and a
    [list_rides] filter with it is kept and matches nothing. *)
Example blank_identities :
  let v := "aaaaaaaaaaaaaaaaaaaaaa  " in
  ObjectId.is_valid v = true /\
  ObjectId.parse v = Some "aaaaaaaaaaaaaaaaaaaaaa" /\
  ObjectId.is_valid "aaaaaaaaaaaaaaaaaaaaaaa " = false /\
  ObjectId.is_valid "aaaaaaaaaaaaaaaaaaaaaaaaaa" = false /\
  get_ride v fleet = (Raise (HTTPException 404 "Ride not found"), fleet) /\
  update_ride_status v "flying" fleet
  = (Raise (HTTPException 400 "Invalid status"), fleet) /\
  update_driver_location v (mkDriverLocationUpdate (at_ 2 3) None) fleet
  = (Raise (HTTPException 404 "Driver not found"), fleet) /\
  fst (request_ride oid_new1 oid_new2 (from_origin (Some v) None) fleet)
  = Raise (HTTPException 404 "Rider not found") /\
  list_rides (Some v) None 0 fleet = (Return [], fleet).
Proof. repeat split; reflexivity. Qed.
